(** * Selection model of the artwork table (App.tsx)

    A shallow embedding of the component state of [App] and of its
    event handlers: the row predicate [isRowSelected], the single-row
    handlers [onRowSelect] / [onRowUnselect] (the revision that wires
    them to the table) and [onSelectionChange] (the revision that
    reconciles the whole page), the header checkbox handler
    [onSelectAllChange], the bulk command [handleCustomRowSelection], the
    page loader [fetchArtworks], the earlier revision of
    [onSelectionChange] that queues one update per row, and the
    pagination bar.

    React state is modelled by explicit state passing.  A handler reads
    the values captured by the render it was created in (its argument
    [st]) and queues updates; functional updates [setX(prev => ...)] are
    applied, in order, to the pending state. *)

From Stdlib Require Import ZArith String Ascii List Lia.
From stdpp Require Import base decidable gmap sets list strings.

Open Scope Z_scope.

(* [set_solver] clears hypotheses by name whether or not they exist. *)
#[local] Set Warnings "-clear-no-such-hyp".

(** ** Data *)

(** [Artwork] of [./types]: the handlers only ever read [id]; [title]
    stands for the display fields. *)
Record Artwork := mkArtwork {
  artwork_id : Z;
  title : string;
}.

(** The [useState] cells of [App] and the [customTotalRef] ref. *)
Record State := mkState {
  artworks : list Artwork;
  loading : bool;
  currentPage : Z;
  totalRecords : Z;
  selectedRowIds : gset Z;
  deselectedRowIds : gset Z;
  customSelectionTotal : Z;
  selectCount : string;
  customTotalRef : Z;
}.

Definition rowsPerPage : Z := 12.

(** State on first render: [useState] initial values. *)
Definition initialState : State :=
  mkState [] false 1 0 ∅ ∅ 0 "" 0.

(** Setters.  Each takes the updater function, as [setX(prev => ...)];
    [setX(v)] is [setX (λ _, v)]. *)
Definition setArtworks (f : list Artwork → list Artwork) (st : State) : State :=
  mkState (f (artworks st)) (loading st) (currentPage st) (totalRecords st)
    (selectedRowIds st) (deselectedRowIds st) (customSelectionTotal st)
    (selectCount st) (customTotalRef st).

Definition setLoading (f : bool → bool) (st : State) : State :=
  mkState (artworks st) (f (loading st)) (currentPage st) (totalRecords st)
    (selectedRowIds st) (deselectedRowIds st) (customSelectionTotal st)
    (selectCount st) (customTotalRef st).

Definition setCurrentPage (f : Z → Z) (st : State) : State :=
  mkState (artworks st) (loading st) (f (currentPage st)) (totalRecords st)
    (selectedRowIds st) (deselectedRowIds st) (customSelectionTotal st)
    (selectCount st) (customTotalRef st).

Definition setTotalRecords (f : Z → Z) (st : State) : State :=
  mkState (artworks st) (loading st) (currentPage st) (f (totalRecords st))
    (selectedRowIds st) (deselectedRowIds st) (customSelectionTotal st)
    (selectCount st) (customTotalRef st).

Definition setSelectedRowIds (f : gset Z → gset Z) (st : State) : State :=
  mkState (artworks st) (loading st) (currentPage st) (totalRecords st)
    (f (selectedRowIds st)) (deselectedRowIds st) (customSelectionTotal st)
    (selectCount st) (customTotalRef st).

Definition setDeselectedRowIds (f : gset Z → gset Z) (st : State) : State :=
  mkState (artworks st) (loading st) (currentPage st) (totalRecords st)
    (selectedRowIds st) (f (deselectedRowIds st)) (customSelectionTotal st)
    (selectCount st) (customTotalRef st).

Definition setCustomSelectionTotal (f : Z → Z) (st : State) : State :=
  mkState (artworks st) (loading st) (currentPage st) (totalRecords st)
    (selectedRowIds st) (deselectedRowIds st) (f (customSelectionTotal st))
    (selectCount st) (customTotalRef st).

Definition setSelectCount (f : string → string) (st : State) : State :=
  mkState (artworks st) (loading st) (currentPage st) (totalRecords st)
    (selectedRowIds st) (deselectedRowIds st) (customSelectionTotal st)
    (f (selectCount st)) (customTotalRef st).

(** [customTotalRef.current = v]. *)
Definition writeCustomTotalRef (v : Z) (st : State) : State :=
  mkState (artworks st) (loading st) (currentPage st) (totalRecords st)
    (selectedRowIds st) (deselectedRowIds st) (customSelectionTotal st)
    (selectCount st) v.

(** [useEffect(() => { customTotalRef.current = customSelectionTotal },
    [customSelectionTotal])], run after each render. *)
Definition syncCustomTotalRef (st : State) : State :=
  writeCustomTotalRef (customSelectionTotal st) st.

(** ** Array helpers *)

(** [Array.prototype.findIndex]: first index satisfying [p], else [-1]. *)
Fixpoint findIndex {A} (p : A → bool) (l : list A) : Z :=
  match l with
  | [] => -1
  | x :: t =>
      if p x then 0
      else let r := findIndex p t in if r =? -1 then -1 else r + 1
  end.

(** [Array.prototype.forEach((x, index) => ...)] threading a state [S];
    [i] is the index of the head of [l]. *)
Fixpoint forEachFrom {A S} (f : A → Z → S → S) (i : Z) (l : list A) (s : S) : S :=
  match l with
  | [] => s
  | x :: t => forEachFrom f (i + 1) t (f x i s)
  end.

Definition forEach {A S} (f : A → Z → S → S) (l : list A) (s : S) : S :=
  forEachFrom f 0 l s.

(** [Array.prototype.filter((x, index) => ...)]. *)
Fixpoint filterFrom {A} (p : A → Z → bool) (i : Z) (l : list A) : list A :=
  match l with
  | [] => []
  | x :: t => if p x i then x :: filterFrom p (i + 1) t else filterFrom p (i + 1) t
  end.

(** [Array.prototype.every((x, index) => ...)]. *)
Fixpoint everyFrom {A} (p : A → Z → bool) (i : Z) (l : list A) : bool :=
  match l with
  | [] => true
  | x :: t => p x i && everyFrom p (i + 1) t
  end.

(** ** Selection query *)

(** [isRowSelected(rowId, rowIndex)]. *)
Definition isRowSelected (st : State) (rowId rowIndex : Z) : bool :=
  if decide (rowId ∈ deselectedRowIds st) then false
  else if decide (rowId ∈ selectedRowIds st) then true
  else
    let globalIndex := (currentPage st - 1) * rowsPerPage + rowIndex in
    globalIndex <? customSelectionTotal st.

(** [getSelectedArtworks()]: the [selection] prop handed to the table. *)
Definition getSelectedArtworks (st : State) : list Artwork :=
  filterFrom (λ artwork index, isRowSelected st (artwork_id artwork) index) 0 (artworks st).

(** [isAllSelected()]: the [selectAll] prop. *)
Definition isAllSelected (st : State) : bool :=
  (0 <? Z.of_nat (length (artworks st)))
  && everyFrom (λ artwork index, isRowSelected st (artwork_id artwork) index) 0 (artworks st).

(** The "Selected: N rows" label:
    [customSelectionTotal + selectedRowIds.size - deselectedRowIds.size]. *)
Definition selectedCount (st : State) : Z :=
  customSelectionTotal st + Z.of_nat (size (selectedRowIds st))
  - Z.of_nat (size (deselectedRowIds st)).

(** ** The specification's reading of the query *)

Module Spec.

(** Global Index Calculator. *)
Definition position (pageNumber pageSize offsetWithinPage : Z) : Z :=
  (pageNumber - 1) * pageSize + offsetWithinPage.

(** [excluded ? false : (included ? true : p < baseline)]. *)
Definition effectiveSelected (baseline : Z) (include exclude : gset Z)
    (ident p : Z) : bool :=
  if decide (ident ∈ exclude) then false
  else if decide (ident ∈ include) then true
  else p <? baseline.

End Spec.

(** ** Single-row handlers (revision wiring [onRowSelect]/[onRowUnselect]) *)

(** [onRowSelect(event)] with [data = event.data]. *)
Definition onRowSelect (data : Artwork) (st : State) : State :=
  let ident := artwork_id data in
  let index := findIndex (λ a, artwork_id a =? ident) (artworks st) in
  if index =? -1 then st
  else
    let globalIndex := (currentPage st - 1) * rowsPerPage + index in
    let currentCustomTotal := customTotalRef st in
    let autoSelectedByRule := globalIndex <? currentCustomTotal in
    if autoSelectedByRule
    then setDeselectedRowIds (λ prev, prev ∖ {[ident]}) st
    else setSelectedRowIds (λ prev, prev ∪ {[ident]}) st.

(** [onRowUnselect(event)] with [data = event.data]. *)
Definition onRowUnselect (data : Artwork) (st : State) : State :=
  let ident := artwork_id data in
  let index := findIndex (λ a, artwork_id a =? ident) (artworks st) in
  if index =? -1 then st
  else
    let globalIndex := (currentPage st - 1) * rowsPerPage + index in
    let currentCustomTotal := customTotalRef st in
    let autoSelectedByRule := globalIndex <? currentCustomTotal in
    if autoSelectedByRule
    then setSelectedRowIds (λ prev, prev ∖ {[ident]})
           (setDeselectedRowIds (λ prev, prev ∪ {[ident]}) st)
    else setSelectedRowIds (λ prev, prev ∖ {[ident]}) st.

(** The table's [ToggleItem(id, desiredSelected)] in that revision. *)
Definition toggleItem (data : Artwork) (desiredSelected : bool) (st : State) : State :=
  if desiredSelected then onRowSelect data st else onRowUnselect data st.

(** ** Whole-page reconciliation (revision wiring [onSelectionChange]) *)

(** Body of the [artworks.forEach] loop of [onSelectionChange], on the
    pair [(nextSelectedIds, nextDeselectedIds)]. *)
Definition reconcileRow (currentSelectedIds : gset Z) (page currentCustomTotal : Z)
    (artwork : Artwork) (index : Z) (next : gset Z * gset Z) : gset Z * gset Z :=
  let '(nextSelectedIds, nextDeselectedIds) := next in
  let ident := artwork_id artwork in
  let isSelectedNow := bool_decide (ident ∈ currentSelectedIds) in
  let globalIndex := (page - 1) * rowsPerPage + index in
  let autoSelectedByRule := globalIndex <? currentCustomTotal in
  if isSelectedNow then
    if autoSelectedByRule then
      (nextSelectedIds,
       if decide (ident ∈ nextDeselectedIds) then nextDeselectedIds ∖ {[ident]}
       else nextDeselectedIds)
    else
      (if decide (ident ∈ nextSelectedIds) then nextSelectedIds
       else nextSelectedIds ∪ {[ident]},
       nextDeselectedIds)
  else
    if autoSelectedByRule then
      (nextSelectedIds,
       if decide (ident ∈ nextDeselectedIds) then nextDeselectedIds
       else nextDeselectedIds ∪ {[ident]})
    else
      (if decide (ident ∈ nextSelectedIds) then nextSelectedIds ∖ {[ident]}
       else nextSelectedIds,
       nextDeselectedIds).

(** [onSelectionChange(e)] with [value = e.value]. *)
Definition onSelectionChange (value : list Artwork) (st : State) : State :=
  let currentSelectedIds : gset Z := list_to_set (map artwork_id value) in
  let currentCustomTotal := customTotalRef st in
  let '(nextSelectedIds, nextDeselectedIds) :=
    forEach (reconcileRow currentSelectedIds (currentPage st) currentCustomTotal)
      (artworks st) (selectedRowIds st, deselectedRowIds st) in
  setDeselectedRowIds (λ _, nextDeselectedIds)
    (setSelectedRowIds (λ _, nextSelectedIds) st).

(** ** Header checkbox *)

(** [onSelectAllChange(e)] with [checked = e.checked].  The membership
    tests read the sets captured by the render ([st]); the updaters act
    on the pending state ([acc]). *)
Definition onSelectAllChange (checked : bool) (st : State) : State :=
  let currentPageIds := map artwork_id (artworks st) in
  if checked then
    fold_left (λ acc ident,
      let acc := setSelectedRowIds (λ prev, prev ∪ {[ident]}) acc in
      if decide (ident ∈ deselectedRowIds st)
      then setDeselectedRowIds (λ prev, prev ∖ {[ident]}) acc
      else acc) currentPageIds st
  else
    fold_left (λ acc ident,
      let acc := setDeselectedRowIds (λ prev, prev ∪ {[ident]}) acc in
      if decide (ident ∈ selectedRowIds st)
      then setSelectedRowIds (λ prev, prev ∖ {[ident]}) acc
      else acc) currentPageIds st.

(** ** Bulk command *)

(** Observable side effects of the handlers. *)
Inductive Output :=
| Alert (msg : string)
| ConsoleError (msg : string)
| OverlayHide
| RenderError.

(** Strings are the UTF-8 bytes of the JavaScript string. *)

(** [StrWhiteSpaceChar], ASCII part: TAB, LF, VT, FF, CR, SP. *)
Definition isWhiteSpace (c : ascii) : bool :=
  let n := Z.of_N (N_of_ascii c) in
  ((9 <=? n) && (n <=? 13)) || (n =? 32).

Definition byte (c : ascii) : Z := Z.of_N (N_of_ascii c).

(** [StrWhiteSpaceChar] beyond ASCII, as a two-byte sequence: U+00A0. *)
Definition isWhiteSpace2 (c1 c2 : ascii) : bool :=
  (byte c1 =? 194) && (byte c2 =? 160).

(** [StrWhiteSpaceChar] beyond ASCII, as a three-byte sequence: U+1680,
    U+2000..U+200A, U+2028, U+2029, U+202F, U+205F, U+3000, U+FEFF. *)
Definition isWhiteSpace3 (c1 c2 c3 : ascii) : bool :=
  ((byte c1 =? 225) && (byte c2 =? 154) && (byte c3 =? 128))
  || ((byte c1 =? 226) && (byte c2 =? 128)
      && (((128 <=? byte c3) && (byte c3 <=? 138))
          || (byte c3 =? 168) || (byte c3 =? 169) || (byte c3 =? 175)))
  || ((byte c1 =? 226) && (byte c2 =? 129) && (byte c3 =? 159))
  || ((byte c1 =? 227) && (byte c2 =? 128) && (byte c3 =? 128))
  || ((byte c1 =? 239) && (byte c2 =? 187) && (byte c3 =? 191)).

(** Leading white space and line terminators removed. *)
Fixpoint trimStart (s : string) : string :=
  match s with
  | EmptyString => EmptyString
  | String c1 t1 =>
      if isWhiteSpace c1 then trimStart t1
      else if byte c1 <? 128 then s
      else
        match t1 with
        | EmptyString => s
        | String c2 t2 =>
            if isWhiteSpace2 c1 c2 then trimStart t2
            else
              match t2 with
              | EmptyString => s
              | String c3 t3 => if isWhiteSpace3 c1 c2 c3 then trimStart t3 else s
              end
        end
  end.

(** The Number value of an integer [n >= 0]: [n] itself up to 2^53,
    beyond that the nearest integer with a 53-bit significand, ties to
    the even one. *)
Definition toDouble (n : Z) : Z :=
  if n <? 2 ^ 53 then n
  else
    let e := Z.log2 n - 52 in
    let q := n / 2 ^ e in
    let r := n mod 2 ^ e in
    let half := 2 ^ (e - 1) in
    let q := if (half <? r) || ((r =? half) && Z.odd q) then q + 1 else q in
    q * 2 ^ e.

Arguments toDouble : simpl never.

(** Value of [c] as a digit in [radix], if it is one. *)
Definition digitValue (radix : Z) (c : ascii) : option Z :=
  let n := Z.of_N (N_of_ascii c) in
  let v :=
    if (48 <=? n) && (n <=? 57) then n - 48
    else if (97 <=? n) && (n <=? 122) then n - 87
    else if (65 <=? n) && (n <=? 90) then n - 55
    else radix in
  if v <? radix then Some v else None.

(** Longest prefix of digits of [s], read in [radix]; [acc] is the
    value read so far ([None]: no digit yet). *)
Fixpoint parseDigits (radix : Z) (acc : option Z) (s : string) : option Z :=
  match s with
  | EmptyString => acc
  | String c t =>
      match digitValue radix c with
      | Some d => parseDigits radix (Some (from_option (λ a, a * radix) 0 acc + d)) t
      | None => acc
      end
  end.

(** ECMAScript [parseInt(string)] without a radix argument: skip leading
    white space, read a sign, strip a [0x]/[0X] prefix (radix 16, else
    10), read the longest prefix of digits and return the Number value
    of the signed integer read.  [None] is [NaN].  Two things are left
    open by the types: a numeral of 2^1024 or more reads as [Infinity],
    which the integer cells of [State] cannot hold, and is kept here as
    the rounded integer; and past twenty significant decimal digits an
    implementation may drop digits, where this reads them all. *)
Definition parseInt (s : string) : option Z :=
  let s := trimStart s in
  let '(sign, s) :=
    match s with
    | String "-" t => (-1, t)
    | String "+" t => (1, t)
    | _ => (1, s)
    end in
  let '(radix, s) :=
    match s with
    | String "0" (String "x" t) => (16, t)
    | String "0" (String "X" t) => (16, t)
    | _ => (10, s)
    end in
  match parseDigits radix None s with
  | None => None
  | Some n => Some (sign * toDouble n)
  end.

(** [isNaN(count) || count < 0]. *)
Definition invalidCount (count : option Z) : bool :=
  match count with
  | None => true
  | Some c => c <? 0
  end.

(** [handleCustomRowSelection()]. *)
Definition handleCustomRowSelection (st : State) : State * list Output :=
  let count := parseInt (selectCount st) in
  if invalidCount count then (st, [Alert "Please enter a valid number"])
  else
    let count := default 0 count in
    let st := setSelectedRowIds (λ _, ∅) st in
    let st := setDeselectedRowIds (λ _, ∅) st in
    let st := setCustomSelectionTotal (λ _, count) st in
    let st := writeCustomTotalRef count st in
    let st := setSelectCount (λ _, "") st in
    (st, [OverlayHide]).

(** ** Page loading *)

(** What [fetch(...)] followed by [response.json()] yields: either
    promise rejects ([NetworkError], [DecodeError]; a body that is
    [null] throws at [data.data] and ends the same way), or the body
    decodes to a page with its rows and a numeric total, or it decodes
    to JSON that has no [pagination] ([NotAPage]: [rows] is its [data]
    field when that is an array of artworks, [None] when it is anything
    else). *)
Inductive Response :=
| NetworkError
| DecodeError
| Page (data : list Artwork) (total : Z)
| NotAPage (rows : option (list Artwork)).

(** [fetchArtworks(page)], given the provider's response.  On a body
    without [pagination], [setArtworks(data.data)] has run when
    [data.pagination.total] throws into the [catch].  When [data.data]
    is no array the rows cell then holds no array: the render that
    follows throws in [getSelectedArtworks], React unmounts the
    component and nothing is shown; the cell is left empty here and the
    failed render is recorded as [RenderError]. *)
Definition fetchArtworks (page : Z) (r : Response) (st : State) : State * list Output :=
  let st := setLoading (λ _, true) st in
  match r with
  | Page data total =>
      let st := setArtworks (λ _, data) st in
      let st := setTotalRecords (λ _, total) st in
      (setLoading (λ _, false) st, [])
  | NotAPage (Some data) =>
      let st := setArtworks (λ _, data) st in
      (setLoading (λ _, false) st, [ConsoleError "Error fetching artworks:"])
  | NotAPage None =>
      let st := setArtworks (λ _, []) st in
      (setLoading (λ _, false) st, [ConsoleError "Error fetching artworks:"; RenderError])
  | NetworkError | DecodeError =>
      (setLoading (λ _, false) st, [ConsoleError "Error fetching artworks:"])
  end.

(** ** Events *)

(** What the user and the provider can do to the component.  The table
    raises [RowSelect] / [RowUnselect] in the revision that wires
    [onRowSelect] / [onRowUnselect], and [SelectionChange] in the
    revision that wires [onSelectionChange]; everything else is common
    to both.  A page request is taken together with its response. *)
Inductive Event :=
| Mount (r : Response)
| GoToPage (p : Z) (r : Response)
| RowSelect (data : Artwork)
| RowUnselect (data : Artwork)
| SelectionChange (value : list Artwork)
| SelectAllChange (checked : bool)
| SelectCountInput (s : string)
| CustomRowSelection.

(** One event, run to completion: the handler, then the effects of the
    render that follows.  [Mount] is the first run of the
    [fetchArtworks(currentPage)] effect; [GoToPage] is a pagination
    button, whose effect runs only when [currentPage] changes. *)
Definition handle (ev : Event) (st : State) : State * list Output :=
  match ev with
  | Mount r => fetchArtworks (currentPage st) r st
  | GoToPage p r =>
      if p =? currentPage st then (st, [])
      else fetchArtworks p r (setCurrentPage (λ _, p) st)
  | RowSelect data => (onRowSelect data st, [])
  | RowUnselect data => (onRowUnselect data st, [])
  | SelectionChange value => (onSelectionChange value st, [])
  | SelectAllChange checked => (onSelectAllChange checked st, [])
  | SelectCountInput s => (setSelectCount (λ _, s) st, [])
  | CustomRowSelection => handleCustomRowSelection st
  end.

Definition step (ev : Event) (st : State) : State :=
  syncCustomTotalRef (fst (handle ev st)).

Definition run (evs : list Event) (st : State) : State :=
  fold_left (λ acc ev, step ev acc) evs st.

(** States the component can be in. *)
Inductive reachable : State → Prop :=
| reachable_init : reachable initialState
| reachable_step st ev : reachable st → reachable (step ev st).

(** The Selection Model part of the state. *)
Definition model (st : State) : Z * gset Z * gset Z :=
  (customSelectionTotal st, selectedRowIds st, deselectedRowIds st).

(** ** A session used in the examples *)

Definition row (i : Z) : Artwork := mkArtwork i "".

(** First page of the collection: identifiers 1..12 at offsets 0..11. *)
Definition page1 : list Artwork := map row [1; 2; 3; 4; 5; 6; 7; 8; 9; 10; 11; 12].

(** Page 1 loaded, nothing selected. *)
Definition sLoaded : State := run [Mount (Page page1 12)] initialState.

(** Header checkbox ticked, then cleared. *)
Definition sAllOn : State := step (SelectAllChange true) sLoaded.
Definition sAllOff : State := step (SelectAllChange false) sAllOn.

(** Then row 5 ticked, in either revision. *)
Definition sRow5 : State := step (RowSelect (row 5)) sAllOff.
Definition sRow5' : State := step (SelectionChange [row 5]) sAllOff.

(** A longer collection, with the bulk rule "first 15" in force and
    row 1 (position 0) cleared by hand. *)
Definition sBulk : State :=
  run [Mount (Page page1 120); SelectCountInput "15"; CustomRowSelection;
       RowUnselect (row 1)] initialState.
(** The same in the revision that reconciles the page: the table
    reports rows 2..12 as the selection. *)
Definition sBulk' : State :=
  run [Mount (Page page1 120); SelectCountInput "15"; CustomRowSelection;
       SelectionChange (map row [2; 3; 4; 5; 6; 7; 8; 9; 10; 11; 12])] initialState.


(** ** The specification's reading of the input of the bulk command *)

Module SpecInput.

Definition isDigit (c : ascii) : bool :=
  let n := Z.of_N (N_of_ascii c) in (48 <=? n) && (n <=? 57).

Fixpoint allDigits (s : string) : bool :=
  match s with
  | EmptyString => true
  | String c t => isDigit c && allDigits t
  end.

(** One or more decimal digits. *)
Definition natLiteral (s : string) : bool :=
  match s with
  | EmptyString => false
  | String _ _ => allDigits s
  end.





End SpecInput.

(** Outcomes of [handleCustomRowSelection]: the input is refused (alert,
    nothing changed), or [k] becomes the baseline. *)
Definition rejected (st : State) : Prop :=
  handleCustomRowSelection st = (st, [Alert "Please enter a valid number"]).

Definition acceptedWith (k : Z) (st : State) : Prop :=
  model (fst (handleCustomRowSelection st)) = (k, ∅, ∅)
  ∧ selectedCount (fst (handleCustomRowSelection st)) = k
  ∧ customTotalRef (fst (handleCustomRowSelection st)) = k
  ∧ snd (handleCustomRowSelection st) = [OverlayHide].

(** What the specification asks of the header checkbox: the single-row
    transition applied to every row of the page in turn. *)
Definition toggleEach (checked : bool) (st : State) : State :=
  fold_left (λ acc artwork, toggleItem artwork checked acc) (artworks st) st.

(** The fields a handler of the selection leaves alone. *)
Definition sameView (st st' : State) : Prop :=
  artworks st' = artworks st ∧ currentPage st' = currentPage st
  ∧ totalRecords st' = totalRecords st ∧ loading st' = loading st
  ∧ customSelectionTotal st' = customSelectionTotal st
  ∧ selectCount st' = selectCount st ∧ customTotalRef st' = customTotalRef st.

(** ** Earlier revision of the whole-page reconciliation *)

Module Queued.

(** Body of the [artworks.forEach] loop of [onSelectionChange] as first
    written: one queued update per row, guarded by the sets and the
    baseline captured by the render ([st]); the updaters act on the
    pending state ([acc]). *)
Definition reconcileRow (st : State) (currentSelectedIds : gset Z)
    (artwork : Artwork) (index : Z) (acc : State) : State :=
  let ident := artwork_id artwork in
  let isSelectedNow := bool_decide (ident ∈ currentSelectedIds) in
  let globalIndex := (currentPage st - 1) * rowsPerPage + index in
  let autoSelectedByRule := globalIndex <? customSelectionTotal st in
  if isSelectedNow then
    if autoSelectedByRule then
      if decide (ident ∈ deselectedRowIds st)
      then setDeselectedRowIds (λ prev, prev ∖ {[ident]}) acc
      else acc
    else
      if decide (ident ∈ selectedRowIds st) then acc
      else setSelectedRowIds (λ prev, prev ∪ {[ident]}) acc
  else
    if autoSelectedByRule then
      if decide (ident ∈ deselectedRowIds st) then acc
      else setDeselectedRowIds (λ prev, prev ∪ {[ident]}) acc
    else
      if decide (ident ∈ selectedRowIds st)
      then setSelectedRowIds (λ prev, prev ∖ {[ident]}) acc
      else acc.

(** [onSelectionChange(e)] with [value = e.value]. *)
Definition onSelectionChange (value : list Artwork) (st : State) : State :=
  let currentSelectedIds : gset Z := list_to_set (map artwork_id value) in
  forEach (reconcileRow st currentSelectedIds) (artworks st) st.

End Queued.

(** Identifiers of the rows of [l] (the first at offset [i]) whose
    [autoSelectedByRule] is [auto]. *)
Fixpoint ruleIds (auto : bool) (page total : Z) (i : Z) (l : list Artwork) : gset Z :=
  match l with
  | [] => ∅
  | a :: t =>
      (if bool_decide (((page - 1) * rowsPerPage + i <? total) = auto)
       then {[artwork_id a]} else ∅) ∪ ruleIds auto page total (i + 1) t
  end.

(** Strings made of white space only (the empty string included). *)
Fixpoint allWhiteSpace (s : string) : bool :=
  match s with
  | EmptyString => true
  | String c t => isWhiteSpace c && allWhiteSpace t
  end.

(** ** Pagination bar *)

(** [Math.ceil(a / b)] on integers, [b > 0]. *)
Definition ceilDiv (a b : Z) : Z := - ((- a) / b).

(** [Math.ceil(totalRecords / rowsPerPage)]. *)
Definition totalPages (st : State) : Z := ceilDiv (totalRecords st) rowsPerPage.

(** The callback of [Array.from({ length: ... }, (_, i) => ...)]: the
    page number of slot [i], or [null]. *)
Definition pageSlot (st : State) (i : Z) : option Z :=
  let pageNum := if currentPage st <=? 3 then i + 1 else currentPage st - 2 + i in
  if totalPages st <? pageNum then None else Some pageNum.

Definition pageSlots (st : State) : list (option Z) :=
  map (pageSlot st) (seqZ 0 (Z.min 5 (totalPages st))).

(** The numbered buttons rendered: [null] slots render nothing. *)
Definition pageButtons (st : State) : list Z := omap (λ o, o) (pageSlots st).

(** [disabled] of the two arrow buttons, and the page each asks for. *)
Definition prevDisabled (st : State) : bool := currentPage st =? 1.
Definition nextDisabled (st : State) : bool := currentPage st =? totalPages st.
Definition prevTarget (st : State) : Z := currentPage st - 1.
Definition nextTarget (st : State) : Z := currentPage st + 1.

(** "Showing [from] to [to] of [totalRecords] entries". *)
Definition showingFrom (st : State) : Z := (currentPage st - 1) * rowsPerPage + 1.
Definition showingTo (st : State) : Z :=
  Z.min (currentPage st * rowsPerPage) (totalRecords st).

(** ** Sessions over a stable collection *)

(** The provider serves a collection in which the record with identifier
    [x] sits at position [pos x]: a page [p] holding [data] agrees with
    it when every row is at the position the component computes. *)
Definition consistentPage (pos : Z → Z) (p : Z) (data : list Artwork) : Prop :=
  ∀ (i : nat) (a : Artwork),
    data !! i = Some a → pos (artwork_id a) = (p - 1) * rowsPerPage + Z.of_nat i.

(** Events of a session in which every page shown comes from that
    collection and the header checkbox is left alone. *)
Definition stableEvent (pos : Z → Z) (st : State) (ev : Event) : Prop :=
  match ev with
  | Mount (Page data _) => consistentPage pos (currentPage st) data
  | Mount (NotAPage _) => False
  | Mount _ => True
  | GoToPage p (Page data _) => 1 ≤ p ∧ consistentPage pos p data
  | GoToPage p _ => p = currentPage st
  | SelectAllChange _ => False
  | _ => True
  end.

(** What such a session keeps true: the ref holds the baseline, the rows
    shown are where the component thinks they are, identifiers in the
    include set lie at or above the baseline and identifiers in the
    exclude set below it. *)
Definition stableInv (pos : Z → Z) (st : State) : Prop :=
  customTotalRef st = customSelectionTotal st
  ∧ 1 ≤ currentPage st
  ∧ consistentPage pos (currentPage st) (artworks st)
  ∧ (∀ x, x ∈ selectedRowIds st → customSelectionTotal st ≤ pos x)
  ∧ (∀ x, x ∈ deselectedRowIds st → 0 ≤ pos x < customSelectionTotal st).


Inductive stableReachable (pos : Z → Z) : State → Prop :=
| stable_init : stableReachable pos initialState
| stable_step st ev :
    stableReachable pos st → stableEvent pos st ev → stableReachable pos (step ev st).

(** * Properties *)

(** ** Array helpers *)

Lemma findIndex_absent {A} (p : A → bool) (l : list A) :
  Forall (λ x, p x = false) l → findIndex p l = -1.
Proof.
  induction 1 as [|x t Hx _ IH]; simpl; [reflexivity|].
  rewrite Hx, IH. reflexivity.
Qed.

Lemma findIndex_range {A} (p : A → bool) (l : list A) :
  findIndex p l = -1 ∨ 0 ≤ findIndex p l < Z.of_nat (length l).
Proof.
  induction l as [|x t IH]; simpl; [left; reflexivity|].
  destruct (p x); [right; lia|].
  destruct (Z.eqb_spec (findIndex p t) (-1)); [left; reflexivity|].
  right. destruct IH; lia.
Qed.

(** [filterFrom] hands [p] each element with its index, counted from [k]. *)
Lemma filterFrom_imap {A} (p : A → Z → bool) (l : list A) : ∀ k : nat,
  filterFrom p (Z.of_nat k) l =
  fst <$> filter (λ xi, p xi.1 (Z.of_nat xi.2) = true)
            (imap (λ i x, (x, (k + i)%nat)) l).
Proof.
  induction l as [|x t IH]; intros k; [reflexivity|].
  rewrite imap_cons, filter_cons. simpl fst; simpl snd.
  replace (k + 0)%nat with k by lia.
  assert (Ht : filterFrom p (Z.of_nat k + 1) t =
               fst <$> filter (λ xi, p xi.1 (Z.of_nat xi.2) = true)
                         (imap ((λ i x, (x, (k + i)%nat)) ∘ S) t)).
  { replace (Z.of_nat k + 1) with (Z.of_nat (S k)) by lia. rewrite IH.
    do 2 f_equal. apply imap_ext. intros i y _. simpl. f_equal. lia. }
  simpl filterFrom. rewrite Ht.
  destruct (p x (Z.of_nat k)) eqn:E.
  - rewrite decide_True by reflexivity. reflexivity.
  - rewrite decide_False by discriminate. reflexivity.
Qed.

(** ** [Set.add] and [Set.delete] are idempotent *)

Lemma add_twice (X : gset Z) (x : Z) : X ∪ {[x]} ∪ {[x]} = X ∪ {[x]}.
Proof. by rewrite <- (assoc_L (∪)), (idemp_L (∪)). Qed.

Lemma delete_twice (X : gset Z) (x : Z) : X ∖ {[x]} ∖ {[x]} = X ∖ {[x]}.
Proof. apply difference_twice_L. Qed.

(** ** The ref follows the state cell *)

Lemma syncCustomTotalRef_id st :
  customTotalRef st = customSelectionTotal st → syncCustomTotalRef st = st.
Proof. destruct st; simpl. by intros ->. Qed.

Lemma step_ref_synced ev st :
  customTotalRef (step ev st) = customSelectionTotal (step ev st).
Proof. reflexivity. Qed.

Lemma reachable_ref_synced st :
  reachable st → customTotalRef st = customSelectionTotal st.
Proof. destruct 1; [reflexivity | apply step_ref_synced]. Qed.

Lemma reachable_run evs : reachable (run evs initialState).
Proof.
  induction evs as [|ev evs IH] using rev_ind; [constructor|].
  unfold run in *. rewrite fold_left_app. simpl. by constructor.
Qed.

(** ** Selection query *)

Lemma isRowSelected_spec st rowId rowIndex :
  isRowSelected st rowId rowIndex =
  Spec.effectiveSelected (customSelectionTotal st) (selectedRowIds st)
    (deselectedRowIds st) rowId (Spec.position (currentPage st) 12 rowIndex).
Proof.
  unfold isRowSelected, Spec.effectiveSelected, Spec.position, rowsPerPage.
  repeat case_decide; reflexivity.
Qed.

(** C1.  For every state and every row identifier at page-local offset
    [rowIndex], [isRowSelected] is the specification's effective
    selection: false when the identifier is in the exclude set, else true
    when it is in the include set, else whether the virtual position
    [(currentPage - 1) * 12 + rowIndex] lies below the baseline.  The
    selection handed to the table is the displayed rows filtered by that
    value, each row taken at its own offset. *)
Theorem isRowSelected_effectiveSelected (st : State) (rowId rowIndex : Z) :
  isRowSelected st rowId rowIndex =
  Spec.effectiveSelected (customSelectionTotal st) (selectedRowIds st)
    (deselectedRowIds st) rowId (Spec.position (currentPage st) 12 rowIndex)
  ∧ Spec.position (currentPage st) 12 rowIndex = (currentPage st - 1) * 12 + rowIndex
  ∧ getSelectedArtworks st =
    fst <$> filter (λ ai,
              Spec.effectiveSelected (customSelectionTotal st) (selectedRowIds st)
                (deselectedRowIds st) (artwork_id ai.1)
                (Spec.position (currentPage st) 12 (Z.of_nat ai.2)) = true)
            (imap (λ i a, (a, i)) (artworks st)).
Proof.
  split; [apply isRowSelected_spec|]. split; [reflexivity|].
  unfold getSelectedArtworks.
  rewrite (filterFrom_imap _ (artworks st) 0). reflexivity.
Qed.

(** C10.  An identifier that is in both sets is reported unselected,
    whatever its offset, page and the baseline: exclusion wins. *)
Theorem isRowSelected_exclusion_wins (st : State) (rowId rowIndex : Z) :
  rowId ∈ selectedRowIds st → rowId ∈ deselectedRowIds st →
  isRowSelected st rowId rowIndex = false.
Proof.
  intros _ Hex. unfold isRowSelected. by rewrite decide_True.
Qed.

Lemma isRowSelected_exclusion_wins_witness :
  5 ∈ selectedRowIds sRow5 ∧ 5 ∈ deselectedRowIds sRow5
  ∧ isRowSelected sRow5 5 4 = false.
Proof.
  assert (H1 : 5 ∈ selectedRowIds sRow5) by (vm_compute; set_solver).
  assert (H2 : 5 ∈ deselectedRowIds sRow5) by (vm_compute; set_solver).
  split; [exact H1|]. split; [exact H2|].
  exact (isRowSelected_exclusion_wins sRow5 5 4 H1 H2).
Defined.

(** ** Single-row handlers *)

(** The handlers leave everything but the two sets alone. *)
Lemma onRowSelect_frame data st :
  artworks (onRowSelect data st) = artworks st
  ∧ currentPage (onRowSelect data st) = currentPage st
  ∧ customTotalRef (onRowSelect data st) = customTotalRef st
  ∧ customSelectionTotal (onRowSelect data st) = customSelectionTotal st.
Proof.
  unfold onRowSelect.
  destruct (_ =? -1); [done|]. destruct (_ <? _); done.
Qed.

Lemma onRowUnselect_frame data st :
  artworks (onRowUnselect data st) = artworks st
  ∧ currentPage (onRowUnselect data st) = currentPage st
  ∧ customTotalRef (onRowUnselect data st) = customTotalRef st
  ∧ customSelectionTotal (onRowUnselect data st) = customSelectionTotal st.
Proof.
  unfold onRowUnselect.
  destruct (_ =? -1); [done|]. destruct (_ <? _); done.
Qed.

Lemma onRowSelect_idempotent data st :
  onRowSelect data (onRowSelect data st) = onRowSelect data st.
Proof.
  destruct (onRowSelect_frame data st) as (Ha & Hp & Hr & _).
  unfold onRowSelect at 1. rewrite Ha, Hp, Hr.
  unfold onRowSelect.
  destruct (_ =? -1); [done|]. destruct (_ <? _).
  - unfold setDeselectedRowIds; simpl. f_equal. apply delete_twice.
  - unfold setSelectedRowIds; simpl. f_equal. apply add_twice.
Qed.

Lemma onRowUnselect_idempotent data st :
  onRowUnselect data (onRowUnselect data st) = onRowUnselect data st.
Proof.
  destruct (onRowUnselect_frame data st) as (Ha & Hp & Hr & _).
  unfold onRowUnselect at 1. rewrite Ha, Hp, Hr.
  unfold onRowUnselect.
  destruct (_ =? -1); [done|]. destruct (_ <? _).
  - unfold setDeselectedRowIds, setSelectedRowIds; simpl.
    f_equal; [apply delete_twice | apply add_twice].
  - unfold setSelectedRowIds; simpl. f_equal. apply delete_twice.
Qed.

(** What the single-row handlers do to the Selection Model for a row
    found on the page at offset [i]; [p] is its virtual position and the
    baseline is read from the ref. *)
Lemma toggleItem_transition data desiredSelected st i :
  findIndex (λ a, artwork_id a =? artwork_id data) (artworks st) = i → i ≠ -1 →
  let p := (currentPage st - 1) * rowsPerPage + i in
  let ident := artwork_id data in
  model (toggleItem data desiredSelected st) =
  match desiredSelected, p <? customTotalRef st with
  | true, false =>
      (customSelectionTotal st, selectedRowIds st ∪ {[ident]}, deselectedRowIds st)
  | true, true =>
      (customSelectionTotal st, selectedRowIds st, deselectedRowIds st ∖ {[ident]})
  | false, true =>
      (customSelectionTotal st, selectedRowIds st ∖ {[ident]},
       deselectedRowIds st ∪ {[ident]})
  | false, false =>
      (customSelectionTotal st, selectedRowIds st ∖ {[ident]}, deselectedRowIds st)
  end.
Proof.
  intros Hi Hne. simpl.
  unfold toggleItem, onRowSelect, onRowUnselect. rewrite Hi.
  destruct (Z.eqb_spec i (-1)); [contradiction|].
  destruct desiredSelected, (_ <? _); reflexivity.
Qed.

(** Between renders of a reachable state the ref equals the baseline, so
    a repeated event is a repeated handler call. *)
Lemma step_toggle_idempotent (data : Artwork) (desiredSelected : bool) (st : State) :
  customTotalRef st = customSelectionTotal st →
  let ev := if desiredSelected then RowSelect data else RowUnselect data in
  step ev (step ev st) = step ev st.
Proof.
  intros Hsync.
  assert (Hstep : ∀ st', customTotalRef st' = customSelectionTotal st' →
            step (if desiredSelected then RowSelect data else RowUnselect data) st'
            = toggleItem data desiredSelected st').
  { intros st' Hs. destruct desiredSelected; unfold step; simpl;
      apply syncCustomTotalRef_id.
    - destruct (onRowSelect_frame data st') as (_ & _ & -> & ->). exact Hs.
    - destruct (onRowUnselect_frame data st') as (_ & _ & -> & ->). exact Hs. }
  simpl. rewrite (Hstep st Hsync).
  rewrite Hstep.
  - destruct desiredSelected; simpl;
      [apply onRowSelect_idempotent | apply onRowUnselect_idempotent].
  - destruct desiredSelected; simpl.
    + destruct (onRowSelect_frame data st) as (_ & _ & -> & ->). exact Hsync.
    + destruct (onRowUnselect_frame data st) as (_ & _ & -> & ->). exact Hsync.
Qed.

(** C7.  A single-row toggle applied twice in succession leaves the
    state (baseline, include set, exclude set and all the rest) exactly
    as one application does. *)
Theorem toggleItem_idempotent (data : Artwork) (desiredSelected : bool) (st : State) :
  toggleItem data desiredSelected (toggleItem data desiredSelected st)
  = toggleItem data desiredSelected st
  ∧ model (toggleItem data desiredSelected (toggleItem data desiredSelected st))
    = model (toggleItem data desiredSelected st).
Proof.
  assert (E : toggleItem data desiredSelected (toggleItem data desiredSelected st)
              = toggleItem data desiredSelected st).
  { destruct desiredSelected; simpl;
      [apply onRowSelect_idempotent | apply onRowUnselect_idempotent]. }
  split; [exact E | by rewrite E].
Qed.

(** C9.  A single-row toggle for an identifier that is not among the
    identifiers of the displayed page changes nothing: the state, hence
    baseline, include set and exclude set, is returned as it was. *)
Theorem toggleItem_unknown_identifier (data : Artwork) (desiredSelected : bool)
    (st : State) :
  artwork_id data ∉ map artwork_id (artworks st) →
  toggleItem data desiredSelected st = st.
Proof.
  intros Hnot.
  assert (Hidx : findIndex (λ a, artwork_id a =? artwork_id data) (artworks st) = -1).
  { apply findIndex_absent, Forall_forall. intros a Ha.
    apply Z.eqb_neq. intros Heq. apply Hnot.
    apply list_elem_of_In, in_map_iff. exists a. split; [exact Heq|].
    by apply list_elem_of_In. }
  destruct desiredSelected; simpl; unfold onRowSelect, onRowUnselect;
    rewrite Hidx; reflexivity.
Qed.

Lemma toggleItem_unknown_identifier_witness :
  (artwork_id (row 40) ∉ map artwork_id (artworks sAllOff))
  ∧ toggleItem (row 40) true sAllOff = sAllOff.
Proof.
  assert (H : artwork_id (row 40) ∉ map artwork_id (artworks sAllOff)).
  { vm_compute. intros Hin. repeat (apply elem_of_cons in Hin as [Hin|Hin]; [discriminate|]).
    by apply elem_of_nil in Hin. }
  split; [exact H|]. exact (toggleItem_unknown_identifier (row 40) true sAllOff H).
Defined.
(** ** Header checkbox *)

Lemma selectAll_checked_fold (D0 : gset Z) (l : list Z) : ∀ acc,
  deselectedRowIds acc ⊆ D0 →
  model (fold_left (λ acc ident,
           let acc := setSelectedRowIds (λ prev, prev ∪ {[ident]}) acc in
           if decide (ident ∈ D0)
           then setDeselectedRowIds (λ prev, prev ∖ {[ident]}) acc
           else acc) l acc)
  = (customSelectionTotal acc, selectedRowIds acc ∪ list_to_set l,
     deselectedRowIds acc ∖ list_to_set l).
Proof.
  induction l as [|x t IH]; intros acc Hsub; simpl fold_left.
  - unfold model. rewrite list_to_set_nil. f_equal; [f_equal|]; set_solver.
  - rewrite list_to_set_cons. case_decide as Hx.
    + rewrite IH by (simpl; set_solver). simpl.
      f_equal; [f_equal|]; set_solver.
    + rewrite IH by (simpl; set_solver). simpl.
      f_equal; [f_equal|]; set_solver.
Qed.

Lemma selectAll_unchecked_fold (S0 : gset Z) (l : list Z) : ∀ acc,
  selectedRowIds acc ⊆ S0 →
  model (fold_left (λ acc ident,
           let acc := setDeselectedRowIds (λ prev, prev ∪ {[ident]}) acc in
           if decide (ident ∈ S0)
           then setSelectedRowIds (λ prev, prev ∖ {[ident]}) acc
           else acc) l acc)
  = (customSelectionTotal acc, selectedRowIds acc ∖ list_to_set l,
     deselectedRowIds acc ∪ list_to_set l).
Proof.
  induction l as [|x t IH]; intros acc Hsub; simpl fold_left.
  - unfold model. rewrite list_to_set_nil. f_equal; [f_equal|]; set_solver.
  - rewrite list_to_set_cons. case_decide as Hx.
    + rewrite IH by (simpl; set_solver). simpl.
      f_equal; [f_equal|]; set_solver.
    + rewrite IH by (simpl; set_solver). simpl.
      f_equal; [f_equal|]; set_solver.
Qed.

(** What the header checkbox does to the Selection Model, in every
    state: every identifier of the page goes into one set and out of the
    other, whatever its position. *)
Lemma onSelectAllChange_model (checked : bool) (st : State) :
  let ids : gset Z := list_to_set (map artwork_id (artworks st)) in
  model (onSelectAllChange checked st) =
  if checked
  then (customSelectionTotal st, selectedRowIds st ∪ ids, deselectedRowIds st ∖ ids)
  else (customSelectionTotal st, selectedRowIds st ∖ ids, deselectedRowIds st ∪ ids).
Proof.
  unfold onSelectAllChange. destruct checked; simpl.
  - by apply selectAll_checked_fold.
  - by apply selectAll_unchecked_fold.
Qed.

(** ** The baseline of a reachable state *)

Lemma onSelectionChange_baseline value st :
  customSelectionTotal (onSelectionChange value st) = customSelectionTotal st.
Proof. unfold onSelectionChange. by destruct (forEach _ _ _). Qed.

Lemma onSelectAllChange_baseline checked st :
  customSelectionTotal (onSelectAllChange checked st) = customSelectionTotal st.
Proof.
  pose proof (onSelectAllChange_model checked st) as Hm.
  cbv zeta in Hm. unfold model in Hm. destruct checked; congruence.
Qed.

Lemma handle_baseline_nonneg ev st :
  0 ≤ customSelectionTotal st → 0 ≤ customSelectionTotal (fst (handle ev st)).
Proof.
  intros H. destruct ev as [r|p r|data|data|value|checked|s|]; simpl.
  - by destruct r as [| | |[rows|]].
  - destruct (p =? currentPage st); [exact H|]. by destruct r as [| | |[rows|]].
  - by destruct (onRowSelect_frame data st) as (_ & _ & _ & ->).
  - by destruct (onRowUnselect_frame data st) as (_ & _ & _ & ->).
  - by rewrite onSelectionChange_baseline.
  - by rewrite onSelectAllChange_baseline.
  - exact H.
  - unfold handleCustomRowSelection.
    destruct (parseInt (selectCount st)) as [k|]; simpl; [|exact H].
    destruct (Z.ltb_spec k 0); simpl; [exact H | assumption].
Qed.

(** The baseline never goes negative. *)
Lemma reachable_baseline_nonneg st : reachable st → 0 ≤ customSelectionTotal st.
Proof.
  induction 1 as [|st ev _ IH]; [reflexivity|].
  unfold step. by apply (handle_baseline_nonneg ev) in IH.
Qed.

(** ** Where the handlers part from the transition table *)

Ltac by_compute := apply (bool_decide_unpack _); vm_compute; exact I.

Lemma session_reachable :
  reachable sAllOn ∧ reachable sAllOff ∧ reachable sRow5 ∧ reachable sRow5'.
Proof.
  unfold sRow5, sRow5', sAllOff, sAllOn, sLoaded, run; simpl fold_left.
  repeat split; repeat constructor.
Qed.

(** C2.  The single-row handlers at the input where they leave the
    table of transitions.  After "select all" then "unselect all" on page
    1 (baseline 0), row 5 sits at position 4, not below the baseline, is
    in the exclude set and is shown unticked.  Ticking it adds 5 to the
    include set but leaves it in the exclude set, in both revisions, so
    the row is still reported unselected.  In the revision that
    reconciles the page, clearing a row below the baseline likewise
    leaves it in the include set. *)
Theorem onRowSelect_leaves_row_excluded :
  reachable sAllOff
  ∧ isRowSelected sAllOff 5 4 = false
  ∧ findIndex (λ a, artwork_id a =? 5) (artworks sAllOff) = 4
  ∧ customTotalRef sAllOff <= (currentPage sAllOff - 1) * rowsPerPage + 4
  ∧ 5 ∈ deselectedRowIds sAllOff
  ∧ (5 ∈ selectedRowIds (onRowSelect (row 5) sAllOff)
     ∧ 5 ∈ deselectedRowIds (onRowSelect (row 5) sAllOff)
     ∧ isRowSelected (onRowSelect (row 5) sAllOff) 5 4 = false)
  ∧ (5 ∈ selectedRowIds (onSelectionChange [row 5] sAllOff)
     ∧ 5 ∈ deselectedRowIds (onSelectionChange [row 5] sAllOff)
     ∧ isRowSelected (onSelectionChange [row 5] sAllOff) 5 4 = false)
  ∧ (1 ∈ selectedRowIds (onSelectAllChange true sBulk')
     ∧ 1 ∈ selectedRowIds
           (onSelectionChange (map row [2; 3; 4; 5; 6; 7; 8; 9; 10; 11; 12])
              (step (SelectAllChange true) sBulk'))
     ∧ 1 ∈ deselectedRowIds
           (onSelectionChange (map row [2; 3; 4; 5; 6; 7; 8; 9; 10; 11; 12])
              (step (SelectAllChange true) sBulk'))).
Proof.
  split; [apply session_reachable|].
  repeat split; try by_compute; vm_compute; congruence.
Qed.

(** C3 as stated fails: the header checkbox does not apply the
    row-by-row transition.  With baseline 0 and every row of page 1
    ticked, clearing the header puts all twelve identifiers in the
    exclude set, where the row-by-row transition only empties the include
    set.  With baseline 15 and row 1 cleared, ticking the header puts all
    twelve identifiers (positions 0..11, below the baseline) in the
    include set, where the row-by-row transition only empties the exclude
    set. *)
Lemma onSelectAllChange_ignores_position :
  (isAllSelected sAllOn = true
   ∧ model sAllOn = (0, list_to_set (map artwork_id page1), ∅)
   ∧ model (onSelectAllChange false sAllOn) = (0, ∅, list_to_set (map artwork_id page1))
   ∧ model (toggleEach false sAllOn) = (0, ∅, ∅)
   ∧ model (onSelectAllChange false sAllOn) ≠ model (toggleEach false sAllOn))
  ∧ (isAllSelected sBulk = false
     ∧ model sBulk = (15, ∅, {[1]})
     ∧ model (onSelectAllChange true sBulk) = (15, list_to_set (map artwork_id page1), ∅)
     ∧ model (toggleEach true sBulk) = (15, ∅, ∅)
     ∧ model (onSelectAllChange true sBulk) ≠ model (toggleEach true sBulk)).
Proof. repeat split; vm_compute; congruence. Qed.

(** C4.  A reachable state whose include and exclude sets overlap:
    page 1 loaded, header ticked, header cleared, row 5 ticked.
    Identifier 5 is then in both sets, in either revision. *)
Theorem include_exclude_overlap_reachable :
  (reachable sRow5
   ∧ 5 ∈ selectedRowIds sRow5 ∧ 5 ∈ deselectedRowIds sRow5
   ∧ ¬ (selectedRowIds sRow5 ## deselectedRowIds sRow5))
  ∧ (reachable sRow5'
     ∧ 5 ∈ selectedRowIds sRow5' ∧ 5 ∈ deselectedRowIds sRow5'
     ∧ ¬ (selectedRowIds sRow5' ## deselectedRowIds sRow5')).
Proof.
  assert (H1 : 5 ∈ selectedRowIds sRow5) by by_compute.
  assert (H2 : 5 ∈ deselectedRowIds sRow5) by by_compute.
  assert (H3 : 5 ∈ selectedRowIds sRow5') by by_compute.
  assert (H4 : 5 ∈ deselectedRowIds sRow5') by by_compute.
  repeat split; try apply session_reachable; try assumption.
  - intros Hd. exact (Hd 5 H1 H2).
  - intros Hd. exact (Hd 5 H3 H4).
Qed.

(** C6.  A reachable state whose displayed count is negative: a
    collection of twelve records, all on page 1; header ticked, then
    cleared.  No row is selected, the label reads -12. *)
Theorem selectedCount_negative_reachable :
  reachable sAllOff
  ∧ artworks sAllOff = page1 ∧ totalRecords sAllOff = 12 ∧ currentPage sAllOff = 1
  ∧ getSelectedArtworks sAllOff = []
  ∧ selectedCount sAllOff = -12.
Proof.
  split; [apply session_reachable|].
  repeat split; vm_compute; reflexivity.
Qed.

(** ** Bulk command *)

Lemma isDigit_cases c :
  SpecInput.isDigit c = true →
  c ∈ ["0"; "1"; "2"; "3"; "4"; "5"; "6"; "7"; "8"; "9"]%char.
Proof.
  destruct c as [[] [] [] [] [] [] [] []]; intros H; try discriminate H;
    repeat first [apply list_elem_of_here | apply list_elem_of_further].
Qed.

Lemma digitValue_isDigit c :
  SpecInput.isDigit c = true → ∃ d, digitValue 10 c = Some d ∧ 0 ≤ d.
Proof.
  intros H%isDigit_cases.
  repeat (apply elem_of_cons in H as [->|H];
    [eexists; split; [vm_compute; reflexivity | lia]|]).
  by apply elem_of_nil in H.
Qed.

Lemma toDouble_nonneg n : 0 ≤ n → 0 ≤ toDouble n.
Proof.
  intros Hn. unfold toDouble. destruct (n <? 2 ^ 53); [exact Hn|].
  cbv zeta. set (e := Z.log2 n - 52).
  assert (H2 : 0 ≤ 2 ^ e) by (apply Z.pow_nonneg; lia).
  destruct (Z.eq_dec (2 ^ e) 0) as [->|Hne]; [lia|].
  assert (Hq : 0 ≤ n / 2 ^ e) by (apply Z.div_pos; lia).
  destruct (_ || _); nia.
Qed.


(** [parseInt] at the edges of the Number type and of white space:
    past 2^53 the numeral is rounded to the nearest double, ties to the
    even one; a no-break space (U+00A0, bytes C2 A0) or a line separator
    (U+2028, bytes E2 80 A8) before the digits is skipped like a blank. *)
Lemma parseInt_edges :
  parseInt "9007199254740992" = Some 9007199254740992
  ∧ parseInt "9007199254740993" = Some 9007199254740992
  ∧ parseInt "9007199254740995" = Some 9007199254740996
  ∧ parseInt "-9007199254740993" = Some (-9007199254740992)
  ∧ parseInt "0x20000000000001" = Some 9007199254740992
  ∧ parseInt (String (ascii_of_N 194) (String (ascii_of_N 160) "15")) = Some 15
  ∧ parseInt (String (ascii_of_N 226) (String (ascii_of_N 128)
                (String (ascii_of_N 168) " 7"))) = Some 7
  ∧ parseInt (String (ascii_of_N 195) (String (ascii_of_N 169) "15")) = None.
Proof. repeat split; vm_compute; reflexivity. Qed.

Lemma parseDigits_allDigits s : ∀ a,
  SpecInput.allDigits s = true → 0 ≤ a →
  ∃ n, parseDigits 10 (Some a) s = Some n ∧ 0 ≤ n.
Proof.
  induction s as [|c t IH]; intros a Hs Ha; simpl in *.
  - eauto.
  - apply andb_prop in Hs as [Hc Ht].
    destruct (digitValue_isDigit c Hc) as (d & -> & Hd).
    apply IH; [exact Ht | lia].
Qed.

(** On a string of digits [parseInt] reads all of it as a decimal
    numeral: no white space, sign or hexadecimal prefix is found. *)
Lemma parseInt_digits c t :
  SpecInput.isDigit c = true → SpecInput.allDigits t = true →
  parseInt (String c t) =
  match parseDigits 10 None (String c t) with
  | None => None
  | Some n => Some (1 * toDouble n)
  end.
Proof.
  intros Hc%isDigit_cases Ht.
  apply elem_of_cons in Hc as [->|Hc].
  - destruct t as [|c2 t2]; [reflexivity|].
    simpl in Ht. apply andb_prop in Ht as [Hc2%isDigit_cases _].
    repeat (apply elem_of_cons in Hc2 as [->|Hc2]; [reflexivity|]).
    by apply elem_of_nil in Hc2.
  - repeat (apply elem_of_cons in Hc as [->|Hc]; [reflexivity|]).
    by apply elem_of_nil in Hc.
Qed.

Lemma parseInt_natLiteral s :
  SpecInput.natLiteral s = true → ∃ k, parseInt s = Some k ∧ 0 ≤ k.
Proof.
  destruct s as [|c t]; [discriminate|]. simpl. intros H.
  apply andb_prop in H as [Hc Ht].
  rewrite (parseInt_digits c t Hc Ht). simpl.
  destruct (digitValue_isDigit c Hc) as (d & -> & Hd). simpl.
  destruct (parseDigits_allDigits t (0 + d) Ht ltac:(lia)) as (n & -> & Hn).
  exists (1 * toDouble n). split; [reflexivity|].
  pose proof (toDouble_nonneg n Hn). lia.
Qed.

Lemma digitValue_not_digit c : SpecInput.isDigit c = false → digitValue 10 c = None.
Proof.
  destruct c as [[] [] [] [] [] [] [] []]; intros H; try discriminate H; reflexivity.
Qed.

Lemma parseDigits_stop (s : string) (c : ascii) (rest : string) : ∀ acc,
  SpecInput.allDigits s = true → SpecInput.isDigit c = false →
  parseDigits 10 acc (String.append s (String c rest)) = parseDigits 10 acc s.
Proof.
  induction s as [|d t IH]; intros acc Hs Hc; simpl.
  - by rewrite digitValue_not_digit.
  - simpl in Hs. apply andb_prop in Hs as [Hd Ht].
    destruct (digitValue_isDigit d Hd) as (v & -> & _). by apply IH.
Qed.

(** [parseInt] on a string that starts with a digit and not with a
    hexadecimal prefix: the decimal digits are read, with the sign
    given. *)
Lemma parseInt_head (c : ascii) (t : string) :
  SpecInput.isDigit c = true →
  (c = "0"%char → ∀ t', t ≠ String "x" t' ∧ t ≠ String "X" t') →
  parseInt (String c t)
  = (match parseDigits 10 None (String c t) with
     | None => None
     | Some n => Some (1 * toDouble n)
     end)
  ∧ parseInt (String "-" (String c t))
    = (match parseDigits 10 None (String c t) with
       | None => None
       | Some n => Some (-1 * toDouble n)
       end).
Proof.
  intros Hc%isDigit_cases Hx.
  apply elem_of_cons in Hc as [->|Hc].
  - specialize (Hx eq_refl). destruct t as [|c2 t2]; [done|].
    destruct c2 as [[] [] [] [] [] [] [] []];
      try (split; reflexivity);
      destruct (Hx t2) as [H1 H2]; congruence.
  - repeat (apply elem_of_cons in Hc as [->|Hc]; [split; reflexivity|]).
    by apply elem_of_nil in Hc.
Qed.

Lemma no_hex_digits (t : string) :
  SpecInput.allDigits t = true →
  ∀ t', t ≠ String "x" t' ∧ t ≠ String "X" t'.
Proof.
  intros Ht t'. destruct t as [|d2 t2]; [split; discriminate|].
  simpl in Ht. apply andb_prop in Ht as [Hd2 _].
  split; intros [= -> _]; discriminate Hd2.
Qed.

Lemma no_hex_after_digits (t : string) (c : ascii) (rest : string) :
  SpecInput.allDigits t = true → c ≠ "x"%char → c ≠ "X"%char →
  ∀ t', String.append t (String c rest) ≠ String "x" t'
        ∧ String.append t (String c rest) ≠ String "X" t'.
Proof.
  intros Ht Hx HX t'. destruct t as [|d2 t2]; simpl.
  - split; intros [= -> _]; congruence.
  - simpl in Ht. apply andb_prop in Ht as [Hd2 _].
    split; intros [= -> _]; discriminate Hd2.
Qed.

Lemma parseInt_trailing (s rest : string) (c : ascii) :
  SpecInput.natLiteral s = true → SpecInput.isDigit c = false →
  c ≠ "x"%char → c ≠ "X"%char →
  parseInt (String.append s (String c rest)) = parseInt s.
Proof.
  intros Hs Hc Hx HX.
  destruct s as [|d t]; [discriminate|]. simpl in Hs.
    apply andb_prop in Hs as [Hd Ht].
    change (String.append (String d t) (String c rest))
      with (String d (String.append t (String c rest))).
    rewrite (proj1 (parseInt_head d (String.append t (String c rest)) Hd
                      (λ _, no_hex_after_digits t c rest Ht Hx HX))).
    rewrite (proj1 (parseInt_head d t Hd (λ _, no_hex_digits t Ht))).
    change (String d (String.append t (String c rest)))
      with (String.append (String d t) (String c rest)).
    rewrite parseDigits_stop; [reflexivity | simpl; by rewrite Hd, Ht | exact Hc].
Qed.

Lemma rejected_of_parse st k :
  parseInt (selectCount st) = Some k → k < 0 → rejected st.
Proof.
  intros Hp Hk. unfold rejected, handleCustomRowSelection.
  rewrite Hp. simpl. destruct (Z.ltb_spec k 0); [reflexivity | lia].
Qed.

Lemma accepted_of_parse st k :
  parseInt (selectCount st) = Some k → 0 ≤ k → acceptedWith k st.
Proof.
  intros Hp Hk. unfold acceptedWith, handleCustomRowSelection.
  rewrite Hp. simpl. destruct (Z.ltb_spec k 0); [lia|]. simpl.
  repeat split. unfold selectedCount, setSelectCount, writeCustomTotalRef,
    setCustomSelectionTotal, setDeselectedRowIds, setSelectedRowIds.
  cbn [fst selectedRowIds deselectedRowIds customSelectionTotal].
  rewrite size_empty. lia.
Qed.

(** *** The decimal numeral of an integer is read back as that integer *)









(** ** Page loading *)

(** C8, as the code has it.  When [fetch] or [response.json()] rejects,
    the Selection Model is unchanged, and so are the displayed rows, the
    page number and the record total: only [loading] is cleared and the
    error is written to the console.  When the body decodes to JSON with
    a [data] array but no [pagination], the Selection Model and the
    record total are unchanged as well, the rows are replaced by that
    array and the error is written to the console. *)
Theorem fetchArtworks_failure (page : Z) (st : State) :
  fetchArtworks page NetworkError st = fetchArtworks page DecodeError st
  ∧ fetchArtworks page NetworkError st
    = (setLoading (λ _, false) st, [ConsoleError "Error fetching artworks:"])
  ∧ model (fst (fetchArtworks page NetworkError st)) = model st
  ∧ artworks (fst (fetchArtworks page NetworkError st)) = artworks st
  ∧ totalRecords (fst (fetchArtworks page NetworkError st)) = totalRecords st
  ∧ model (step (Mount NetworkError) st) = model st
  ∧ model (step (GoToPage page NetworkError) st) = model st
  ∧ model (step (Mount DecodeError) st) = model st
  ∧ model (step (GoToPage page DecodeError) st) = model st
  ∧ (∀ rows,
       fetchArtworks page (NotAPage (Some rows)) st
       = (setLoading (λ _, false) (setArtworks (λ _, rows) st),
          [ConsoleError "Error fetching artworks:"])
       ∧ model (fst (fetchArtworks page (NotAPage (Some rows)) st)) = model st
       ∧ artworks (fst (fetchArtworks page (NotAPage (Some rows)) st)) = rows
       ∧ totalRecords (fst (fetchArtworks page (NotAPage (Some rows)) st))
         = totalRecords st).
Proof.
  repeat split; unfold step, handle; destruct (page =? currentPage st); reflexivity.
Qed.

(** C8 as stated fails where a page is on display.  In a session with
    ten pages, page 1 shown, the "next" arrow is enabled and asks for
    page 2; with the network down the twelve rows of page 1 stay on
    screen, not an empty page, and nothing but the console records the
    failure. *)
Lemma fetch_error_keeps_rows :
  reachable sBulk
  ∧ totalPages sBulk = 10 ∧ currentPage sBulk = 1
  ∧ nextDisabled sBulk = false ∧ nextTarget sBulk = 2 ∧ 2 ∈ pageButtons sBulk
  ∧ artworks (fst (handle (GoToPage 2 NetworkError) sBulk)) = page1
  ∧ artworks (fst (handle (GoToPage 2 NetworkError) sBulk)) ≠ []
  ∧ currentPage (fst (handle (GoToPage 2 NetworkError) sBulk)) = 2
  ∧ snd (handle (GoToPage 2 NetworkError) sBulk) = [ConsoleError "Error fetching artworks:"].
Proof.
  split; [apply reachable_run|].
  repeat split; try (vm_compute; congruence).
  vm_compute. apply list_elem_of_further, list_elem_of_here.
Qed.

(** * Further properties of the component *)

(** ** The table's selection and the header checkbox state *)

Lemma filterFrom_length {A} (p : A → Z → bool) (l : list A) : ∀ i,
  (length (filterFrom p i l) ≤ length l)%nat.
Proof.
  induction l as [|x t IH]; intros i; simpl; [lia|].
  destruct (p x i); simpl; specialize (IH (i + 1)); lia.
Qed.

Lemma everyFrom_filterFrom {A} (p : A → Z → bool) (l : list A) : ∀ i,
  everyFrom p i l = true ↔ filterFrom p i l = l.
Proof.
  induction l as [|x t IH]; intros i; simpl; [done|].
  destruct (p x i); simpl.
  - rewrite IH. split; [by intros -> | by intros [= ->]].
  - split; [discriminate|]. intros H.
    pose proof (filterFrom_length p t (i + 1)) as Hlen.
    rewrite H in Hlen. simpl in Hlen. lia.
Qed.

Lemma everyFrom_all {A} (p : A → Z → bool) (l : list A) :
  (∀ x j, x ∈ l → p x j = true) → ∀ i, everyFrom p i l = true.
Proof.
  induction l as [|x t IH]; intros H i; simpl; [done|].
  rewrite H by apply list_elem_of_here. simpl.
  apply IH. intros y j Hy. apply H. by apply list_elem_of_further.
Qed.

Lemma filterFrom_none {A} (p : A → Z → bool) (l : list A) :
  (∀ x j, x ∈ l → p x j = false) → ∀ i, filterFrom p i l = [].
Proof.
  induction l as [|x t IH]; intros H i; simpl; [done|].
  rewrite H by apply list_elem_of_here.
  apply IH. intros y j Hy. apply H. by apply list_elem_of_further.
Qed.

Lemma isAllSelected_iff (st : State) :
  isAllSelected st = true ↔ artworks st ≠ [] ∧ getSelectedArtworks st = artworks st.
Proof.
  unfold isAllSelected, getSelectedArtworks.
  rewrite andb_true_iff, everyFrom_filterFrom, Z.ltb_lt.
  destruct (artworks st) as [|a t]; simpl length; split; intros [H1 H2];
    (split; [|exact H2]); first [lia | done].
Qed.

(** X1.  The header checkbox is shown ticked exactly when the page has
    rows and the selection handed to the table is the whole page. *)
Theorem isAllSelected_whole_page (st : State) :
  isAllSelected st = true ↔ artworks st ≠ [] ∧ getSelectedArtworks st = artworks st.
Proof. apply isAllSelected_iff. Qed.

(** ** Header checkbox *)

Lemma sameView_refl st : sameView st st.
Proof. by repeat split. Qed.

Lemma sameView_trans st1 st2 st3 :
  sameView st1 st2 → sameView st2 st3 → sameView st1 st3.
Proof. unfold sameView. intros H1 H2. destruct_and!. repeat split; congruence. Qed.

Lemma sameView_fold {A} (f : State → A → State) (l : list A) :
  (∀ acc x, sameView acc (f acc x)) → ∀ acc, sameView acc (fold_left f l acc).
Proof.
  intros Hf. induction l as [|x t IH]; intros acc; simpl; [apply sameView_refl|].
  eapply sameView_trans; [apply Hf | apply IH].
Qed.

Lemma onSelectAllChange_sameView checked st :
  sameView st (onSelectAllChange checked st).
Proof.
  unfold onSelectAllChange. destruct checked; apply sameView_fold;
    intros acc x; case_decide; by repeat split.
Qed.

Lemma page_ids_elem (a : Artwork) (l : list Artwork) :
  a ∈ l → artwork_id a ∈ (list_to_set (map artwork_id l) : gset Z).
Proof.
  intros Ha. apply elem_of_list_to_set, list_elem_of_In, in_map.
  by apply list_elem_of_In.
Qed.

Lemma onSelectAllChange_sets checked st :
  selectedRowIds (onSelectAllChange checked st)
  = (if checked
     then selectedRowIds st ∪ list_to_set (map artwork_id (artworks st))
     else selectedRowIds st ∖ list_to_set (map artwork_id (artworks st)))
  ∧ deselectedRowIds (onSelectAllChange checked st)
    = (if checked
       then deselectedRowIds st ∖ list_to_set (map artwork_id (artworks st))
       else deselectedRowIds st ∪ list_to_set (map artwork_id (artworks st))).
Proof.
  pose proof (onSelectAllChange_model checked st) as Hm.
  cbv zeta in Hm. split.
  - change (selectedRowIds (onSelectAllChange checked st))
      with (snd (fst (model (onSelectAllChange checked st)))).
    rewrite Hm. by destruct checked.
  - change (deselectedRowIds (onSelectAllChange checked st))
      with (snd (model (onSelectAllChange checked st))).
    rewrite Hm. by destruct checked.
Qed.

(** C3, as the code has it.  The header checkbox overrides every row of
    the displayed page by hand, whatever its virtual position: ticking it
    adds every identifier of the page to the include set and removes it
    from the exclude set, clearing it adds every identifier of the page
    to the exclude set and removes it from the include set.  The
    baseline, the membership of identifiers that are not on the page and
    every other cell of the state are unchanged. *)
Theorem onSelectAllChange_page_override (checked : bool) (st : State) :
  model (onSelectAllChange checked st)
  = (customSelectionTotal st,
     if checked
     then selectedRowIds st ∪ list_to_set (map artwork_id (artworks st))
     else selectedRowIds st ∖ list_to_set (map artwork_id (artworks st)),
     if checked
     then deselectedRowIds st ∖ list_to_set (map artwork_id (artworks st))
     else deselectedRowIds st ∪ list_to_set (map artwork_id (artworks st)))
  ∧ sameView st (onSelectAllChange checked st).
Proof.
  split; [|apply onSelectAllChange_sameView].
  pose proof (onSelectAllChange_model checked st) as Hm. cbv zeta in Hm.
  rewrite Hm. by destruct checked.
Qed.

(** X2.  Ticking the header checkbox on a page with rows leaves the
    header ticked: every row of the page is then reported selected. *)
Theorem onSelectAllChange_checked_selects_page (st : State) :
  artworks st ≠ [] → isAllSelected (onSelectAllChange true st) = true.
Proof.
  intros Hne.
  destruct (onSelectAllChange_sameView true st) as (Ha & _).
  destruct (onSelectAllChange_sets true st) as [Hs Hd].
  unfold isAllSelected. rewrite Ha. apply andb_true_iff. split.
  - apply Z.ltb_lt. destruct (artworks st); [done | simpl; lia].
  - apply everyFrom_all. intros a j Hin%page_ids_elem.
    unfold isRowSelected. rewrite Hs, Hd.
    rewrite decide_False by set_solver. rewrite decide_True by set_solver. done.
Qed.

Lemma onSelectAllChange_checked_selects_page_witness :
  artworks sLoaded ≠ [] ∧ isAllSelected (onSelectAllChange true sLoaded) = true.
Proof.
  assert (H : artworks sLoaded ≠ []) by (vm_compute; discriminate).
  split; [exact H | exact (onSelectAllChange_checked_selects_page sLoaded H)].
Defined.

(** X3.  Clearing the header checkbox leaves no row of the page
    selected, whatever the baseline and the sets were. *)
Theorem onSelectAllChange_unchecked_clears_page (st : State) :
  getSelectedArtworks (onSelectAllChange false st) = []
  ∧ isAllSelected (onSelectAllChange false st) = false.
Proof.
  destruct (onSelectAllChange_sameView false st) as (Ha & _).
  destruct (onSelectAllChange_sets false st) as [_ Hd].
  assert (Hnone : getSelectedArtworks (onSelectAllChange false st) = []).
  { unfold getSelectedArtworks. rewrite Ha. apply filterFrom_none.
    intros a j Hin%page_ids_elem. unfold isRowSelected. rewrite Hd.
    by rewrite decide_True by set_solver. }
  split; [exact Hnone|].
  destruct (isAllSelected _) eqn:E; [|reflexivity].
  apply isAllSelected_iff in E as [Hne Hall].
  rewrite Hnone in Hall. congruence.
Qed.

(** X4.  The header checkbox changes the membership of no identifier
    outside the displayed page, in either set, and nothing but the two
    sets. *)
Theorem onSelectAllChange_scoped_to_page (checked : bool) (st : State) (x : Z) :
  x ∉ map artwork_id (artworks st) →
  (x ∈ selectedRowIds (onSelectAllChange checked st) ↔ x ∈ selectedRowIds st)
  ∧ (x ∈ deselectedRowIds (onSelectAllChange checked st) ↔ x ∈ deselectedRowIds st)
  ∧ sameView st (onSelectAllChange checked st).
Proof.
  intros Hx.
  assert (Hx' : x ∉ (list_to_set (map artwork_id (artworks st)) : gset Z))
    by by rewrite elem_of_list_to_set.
  destruct (onSelectAllChange_sets checked st) as [Hs Hd].
  rewrite Hs, Hd.
  split; [|split; [|apply onSelectAllChange_sameView]]; destruct checked; set_solver.
Qed.

Lemma onSelectAllChange_scoped_to_page_witness :
  (40 ∉ map artwork_id (artworks sAllOn))
  ∧ (40 ∈ deselectedRowIds (onSelectAllChange false sAllOn) ↔ 40 ∈ deselectedRowIds sAllOn).
Proof.
  assert (H : 40 ∉ map artwork_id (artworks sAllOn)).
  { vm_compute. intros Hin.
    repeat (apply elem_of_cons in Hin as [Hin|Hin]; [discriminate|]).
    by apply elem_of_nil in Hin. }
  split; [exact H|].
  exact (proj1 (proj2 (onSelectAllChange_scoped_to_page false sAllOn 40 H))).
Defined.

(** ** What a click on a row achieves *)

Ltac row_cases Hi :=
  unfold toggleItem, onRowSelect, onRowUnselect; rewrite ?Hi;
  match goal with |- context [?i =? -1] => destruct (Z.eqb_spec i (-1)); [congruence|] end.

(** X5.  Clearing a row always shows it cleared: after [onRowUnselect]
    for a row found on the page, [isRowSelected] is false for that row. *)
Theorem onRowUnselect_unselects (data : Artwork) (st : State) (i : Z) :
  customTotalRef st = customSelectionTotal st →
  findIndex (λ a, artwork_id a =? artwork_id data) (artworks st) = i → i ≠ -1 →
  isRowSelected (onRowUnselect data st) (artwork_id data) i = false.
Proof.
  intros Hsync Hi Hne. row_cases Hi.
  destruct (_ <? _) eqn:E; unfold isRowSelected; simpl.
  - by rewrite decide_True by set_solver.
  - case_decide; [done|]. rewrite decide_False by set_solver.
    by rewrite <- Hsync.
Qed.

Lemma onRowUnselect_unselects_witness :
  customTotalRef sBulk = customSelectionTotal sBulk
  ∧ findIndex (λ a, artwork_id a =? artwork_id (row 3)) (artworks sBulk) = 2
  ∧ 2 ≠ -1
  ∧ isRowSelected (onRowUnselect (row 3) sBulk) (artwork_id (row 3)) 2 = false.
Proof.
  assert (H1 : customTotalRef sBulk = customSelectionTotal sBulk) by reflexivity.
  assert (H2 : findIndex (λ a, artwork_id a =? artwork_id (row 3)) (artworks sBulk) = 2)
    by reflexivity.
  assert (H3 : 2 ≠ -1) by lia.
  split; [exact H1|]. split; [exact H2|]. split; [exact H3|].
  exact (onRowUnselect_unselects (row 3) sBulk 2 H1 H2 H3).
Defined.

(** X6.  Ticking a row shows it ticked exactly when the rule selects
    its position or its identifier is not in the exclude set: a row
    above the baseline that is in the exclude set cannot be ticked. *)
Theorem onRowSelect_selects_unless_blocked (data : Artwork) (st : State) (i : Z) :
  customTotalRef st = customSelectionTotal st →
  findIndex (λ a, artwork_id a =? artwork_id data) (artworks st) = i → i ≠ -1 →
  isRowSelected (onRowSelect data st) (artwork_id data) i = true
  ↔ ((currentPage st - 1) * rowsPerPage + i < customSelectionTotal st
     ∨ artwork_id data ∉ deselectedRowIds st).
Proof.
  intros Hsync Hi Hne. row_cases Hi. rewrite Hsync.
  destruct (Z.ltb_spec ((currentPage st - 1) * rowsPerPage + i) (customSelectionTotal st))
    as [Hlt|Hge]; unfold isRowSelected; simpl.
  - rewrite decide_False by set_solver.
    destruct (Z.ltb_spec ((currentPage st - 1) * rowsPerPage + i) (customSelectionTotal st));
      [|lia].
    case_decide; split; auto.
  - case_decide as Hd.
    + split; [discriminate|]. intros [?|?]; [lia | contradiction].
    + rewrite decide_True by set_solver. split; auto.
Qed.

Lemma onRowSelect_selects_unless_blocked_witness :
  customTotalRef sAllOff = customSelectionTotal sAllOff
  ∧ findIndex (λ a, artwork_id a =? artwork_id (row 5)) (artworks sAllOff) = 4
  ∧ 4 ≠ -1
  ∧ (isRowSelected (onRowSelect (row 5) sAllOff) (artwork_id (row 5)) 4 = true
     ↔ ((currentPage sAllOff - 1) * rowsPerPage + 4 < customSelectionTotal sAllOff
        ∨ artwork_id (row 5) ∉ deselectedRowIds sAllOff)).
Proof.
  assert (H1 : customTotalRef sAllOff = customSelectionTotal sAllOff) by reflexivity.
  assert (H2 : findIndex (λ a, artwork_id a =? artwork_id (row 5)) (artworks sAllOff) = 4)
    by reflexivity.
  assert (H3 : 4 ≠ -1) by lia.
  split; [exact H1|]. split; [exact H2|]. split; [exact H3|].
  exact (onRowSelect_selects_unless_blocked (row 5) sAllOff 4 H1 H2 H3).
Defined.

(** X7.  A click on one row changes no other row: for every other
    identifier, at any offset, [isRowSelected] is as before, and nothing
    but the two sets changes. *)
Theorem toggleItem_other_rows (data : Artwork) (desiredSelected : bool) (st : State)
    (x j : Z) :
  x ≠ artwork_id data →
  isRowSelected (toggleItem data desiredSelected st) x j = isRowSelected st x j
  ∧ sameView st (toggleItem data desiredSelected st).
Proof.
  intros Hx. unfold toggleItem, onRowSelect, onRowUnselect.
  destruct desiredSelected; destruct (_ =? -1); try (split; [done | apply sameView_refl]);
    destruct (_ <? _); (split; [|by repeat split]); unfold isRowSelected; simpl;
    repeat case_decide; try reflexivity; set_solver.
Qed.

Lemma toggleItem_other_rows_witness :
  7 ≠ artwork_id (row 5)
  ∧ isRowSelected (toggleItem (row 5) true sAllOff) 7 6 = isRowSelected sAllOff 7 6.
Proof.
  assert (H : 7 ≠ artwork_id (row 5)) by discriminate.
  split; [exact H | exact (proj1 (toggleItem_other_rows (row 5) true sAllOff 7 6 H))].
Defined.

Lemma state_eq (st st' : State) :
  sameView st st' → selectedRowIds st' = selectedRowIds st →
  deselectedRowIds st' = deselectedRowIds st → st' = st.
Proof.
  destruct st, st'. unfold sameView. simpl. intros H ??. destruct_and!. congruence.
Qed.

(** X8.  Ticking a row that is shown cleared and is not in the include
    set, then clearing it again, gives back the state exactly. *)
Theorem select_then_unselect_restores (data : Artwork) (st : State) (i : Z) :
  customTotalRef st = customSelectionTotal st →
  findIndex (λ a, artwork_id a =? artwork_id data) (artworks st) = i → i ≠ -1 →
  isRowSelected st (artwork_id data) i = false →
  artwork_id data ∉ selectedRowIds st →
  onRowUnselect data (onRowSelect data st) = st.
Proof.
  intros Hsync Hi Hne Hsel Hnin.
  destruct (onRowSelect_frame data st) as (Ha & Hp & Hr & Ht).
  unfold onRowUnselect. rewrite Ha, Hp, Hr, Hi.
  destruct (Z.eqb_spec i (-1)); [congruence|].
  unfold onRowSelect. rewrite Hi. destruct (Z.eqb_spec i (-1)); [congruence|].
  unfold isRowSelected in Hsel. rewrite <- Hsync in Hsel.
  destruct (_ <? _) eqn:E; apply state_eq; try (by repeat split); simpl.
  - set_solver.
  - case_decide as Hd; [|by rewrite decide_False in Hsel].
    apply set_eq. intros y. rewrite elem_of_union, elem_of_difference, elem_of_singleton.
    destruct (decide (y = artwork_id data)) as [->|]; naive_solver.
  - set_solver.
Qed.

Lemma select_then_unselect_restores_witness :
  onRowUnselect (row 1) (onRowSelect (row 1) sBulk) = sBulk.
Proof.
  apply (select_then_unselect_restores (row 1) sBulk 0); try reflexivity; [lia|].
  apply (bool_decide_unpack _). vm_compute. exact I.
Defined.

(** X9.  Clearing a row that is shown ticked, then ticking it again,
    gives back the state exactly, provided a row the rule selects is not
    also in the include set. *)
Theorem unselect_then_select_restores (data : Artwork) (st : State) (i : Z) :
  customTotalRef st = customSelectionTotal st →
  findIndex (λ a, artwork_id a =? artwork_id data) (artworks st) = i → i ≠ -1 →
  isRowSelected st (artwork_id data) i = true →
  ((currentPage st - 1) * rowsPerPage + i < customSelectionTotal st →
   artwork_id data ∉ selectedRowIds st) →
  onRowSelect data (onRowUnselect data st) = st.
Proof.
  intros Hsync Hi Hne Hsel Hrule.
  destruct (onRowUnselect_frame data st) as (Ha & Hp & Hr & Ht).
  unfold onRowSelect. rewrite Ha, Hp, Hr, Hi.
  destruct (Z.eqb_spec i (-1)); [congruence|].
  unfold onRowUnselect. rewrite Hi. destruct (Z.eqb_spec i (-1)); [congruence|].
  unfold isRowSelected in Hsel. rewrite <- Hsync in Hsel, Hrule.
  case_decide as Hd; [discriminate|].
  destruct (Z.ltb_spec ((currentPage st - 1) * rowsPerPage + i) (customTotalRef st))
    as [Hlt|Hge]; apply state_eq; try (by repeat split); simpl.
  - specialize (Hrule Hlt). set_solver.
  - set_solver.
  - case_decide as Hs; [|discriminate].
    apply set_eq. intros y. rewrite elem_of_union, elem_of_difference, elem_of_singleton.
    destruct (decide (y = artwork_id data)) as [->|]; naive_solver.
Qed.

Lemma unselect_then_select_restores_witness :
  onRowSelect (row 3) (onRowUnselect (row 3) sBulk) = sBulk.
Proof.
  apply (unselect_then_select_restores (row 3) sBulk 2); try reflexivity; [lia|].
  intros _. apply (bool_decide_unpack _). vm_compute. exact I.
Defined.

(** ** Whole-page reconciliation *)

(** The loop of [onSelectionChange] in closed form: identifiers reported
    selected leave the exclude set when the rule selects their row and
    join the include set when it does not; the others do the opposite. *)
Lemma reconcile_closed (cur : gset Z) (page total : Z) (l : list Artwork) :
  ∀ i S D,
  forEachFrom (reconcileRow cur page total) i l (S, D)
  = ((S ∪ (ruleIds false page total i l ∩ cur)) ∖ (ruleIds false page total i l ∖ cur),
     (D ∖ (ruleIds true page total i l ∩ cur)) ∪ (ruleIds true page total i l ∖ cur)).
Proof.
  induction l as [|a t IH]; intros i S D; simpl forEachFrom.
  - simpl. f_equal; set_solver.
  - simpl ruleIds.
    destruct ((page - 1) * rowsPerPage + i <? total);
      destruct (bool_decide_reflect (artwork_id a ∈ cur)) as [Hc|Hc];
      rewrite ?(bool_decide_eq_true_2 (true = true)), ?(bool_decide_eq_true_2 (false = false)),
        ?(bool_decide_eq_false_2 (true = false)), ?(bool_decide_eq_false_2 (false = true))
        by congruence;
      case_decide; rewrite IH; f_equal; set_solver.
Qed.

Lemma onSelectionChange_sets value st :
  selectedRowIds (onSelectionChange value st)
  = (selectedRowIds st
     ∪ (ruleIds false (currentPage st) (customTotalRef st) 0 (artworks st)
        ∩ list_to_set (map artwork_id value)))
    ∖ (ruleIds false (currentPage st) (customTotalRef st) 0 (artworks st)
       ∖ list_to_set (map artwork_id value))
  ∧ deselectedRowIds (onSelectionChange value st)
    = (deselectedRowIds st
       ∖ (ruleIds true (currentPage st) (customTotalRef st) 0 (artworks st)
          ∩ list_to_set (map artwork_id value)))
      ∪ (ruleIds true (currentPage st) (customTotalRef st) 0 (artworks st)
         ∖ list_to_set (map artwork_id value)).
Proof.
  unfold onSelectionChange, forEach. rewrite reconcile_closed. done.
Qed.

Lemma onSelectionChange_sameView value st : sameView st (onSelectionChange value st).
Proof.
  unfold onSelectionChange. destruct (forEach _ _ _). by repeat split.
Qed.

(** X10.  Reporting the same selection twice changes nothing the
    second time: [onSelectionChange] is idempotent. *)
Theorem onSelectionChange_idempotent (value : list Artwork) (st : State) :
  onSelectionChange value (onSelectionChange value st) = onSelectionChange value st.
Proof.
  pose proof (onSelectionChange_sameView value st) as Hv.
  pose proof (onSelectionChange_sameView value (onSelectionChange value st)) as Hv2.
  destruct (onSelectionChange_sets value (onSelectionChange value st)) as [Hs2 Hd2].
  destruct (onSelectionChange_sets value st) as [Hs Hd].
  destruct Hv as (Ha & Hp & _ & _ & _ & _ & Hr).
  rewrite Ha, Hp, Hr in Hs2, Hd2.
  apply state_eq; [exact Hv2 | |].
  - rewrite Hs2, Hs. set_solver.
  - rewrite Hd2, Hd. set_solver.
Qed.

Lemma ruleIds_on_page auto page total (l : list Artwork) : ∀ i x,
  x ∈ ruleIds auto page total i l → x ∈ map artwork_id l.
Proof.
  induction l as [|a t IH]; intros i x; simpl; [set_solver|].
  rewrite elem_of_union. intros [H|H].
  - case_bool_decide; [|set_solver].
    apply elem_of_singleton in H as ->. apply list_elem_of_here.
  - apply list_elem_of_further. by eapply IH.
Qed.

(** X11.  [onSelectionChange] changes the membership of no identifier
    outside the displayed page, in either set, and nothing but the two
    sets: selections made on other pages survive. *)
Theorem onSelectionChange_scoped_to_page (value : list Artwork) (st : State) (x : Z) :
  x ∉ map artwork_id (artworks st) →
  (x ∈ selectedRowIds (onSelectionChange value st) ↔ x ∈ selectedRowIds st)
  ∧ (x ∈ deselectedRowIds (onSelectionChange value st) ↔ x ∈ deselectedRowIds st)
  ∧ sameView st (onSelectionChange value st).
Proof.
  intros Hx.
  destruct (onSelectionChange_sets value st) as [Hs Hd]. rewrite Hs, Hd.
  assert (HN : ∀ b, x ∉ ruleIds b (currentPage st) (customTotalRef st) 0 (artworks st))
    by (intros b H; by apply ruleIds_on_page in H).
  pose proof (HN true). pose proof (HN false).
  split; [|split; [|apply onSelectionChange_sameView]]; set_solver.
Qed.

Lemma onSelectionChange_scoped_to_page_witness :
  (40 ∉ map artwork_id (artworks sAllOff))
  ∧ (40 ∈ selectedRowIds (onSelectionChange [row 5] sAllOff) ↔ 40 ∈ selectedRowIds sAllOff).
Proof.
  assert (H : 40 ∉ map artwork_id (artworks sAllOff)).
  { vm_compute. intros Hin.
    repeat (apply elem_of_cons in Hin as [Hin|Hin]; [discriminate|]).
    by apply elem_of_nil in Hin. }
  split; [exact H|].
  exact (proj1 (onSelectionChange_scoped_to_page [row 5] sAllOff 40 H)).
Defined.

(** One row of the earlier loop.  Its guards read the sets of the
    render, its updates act on the pending sets; as long as the pending
    sets differ from the render's only by this loop's own updates, the
    guards only skip updates that would change nothing, and the row does
    to the pending sets what [reconcileRow] does to its local copies. *)
Lemma queued_step (st : State) (cur : gset Z) (a : Artwork) (i : Z) (acc : State) :
  deselectedRowIds acc ∩ cur ⊆ deselectedRowIds st →
  selectedRowIds st ∩ cur ⊆ selectedRowIds acc →
  deselectedRowIds st ∖ cur ⊆ deselectedRowIds acc →
  selectedRowIds acc ∖ cur ⊆ selectedRowIds st →
  sameView acc (Queued.reconcileRow st cur a i acc)
  ∧ (selectedRowIds (Queued.reconcileRow st cur a i acc),
     deselectedRowIds (Queued.reconcileRow st cur a i acc))
    = reconcileRow cur (currentPage st) (customSelectionTotal st) a i
        (selectedRowIds acc, deselectedRowIds acc)
  ∧ deselectedRowIds (Queued.reconcileRow st cur a i acc) ∩ cur ⊆ deselectedRowIds st
  ∧ selectedRowIds st ∩ cur ⊆ selectedRowIds (Queued.reconcileRow st cur a i acc)
  ∧ deselectedRowIds st ∖ cur ⊆ deselectedRowIds (Queued.reconcileRow st cur a i acc)
  ∧ selectedRowIds (Queued.reconcileRow st cur a i acc) ∖ cur
    ⊆ selectedRowIds st.
Proof.
  intros H1 H2 H3 H4. unfold Queued.reconcileRow, reconcileRow.
  destruct (_ <? _); destruct (bool_decide_reflect (artwork_id a ∈ cur)) as [Hc|Hc];
    repeat case_decide; simpl;
    (split; [by repeat split|]);
    (split; [f_equal; set_solver|]);
    (split; [clear H2 H4; set_solver|]);
    (split; [clear H1 H3; set_solver|]);
    (split; [clear H2 H4; set_solver | clear H1 H3; set_solver]).
Qed.

Lemma queued_fold (st : State) (cur : gset Z) (l : list Artwork) : ∀ i acc,
  deselectedRowIds acc ∩ cur ⊆ deselectedRowIds st →
  selectedRowIds st ∩ cur ⊆ selectedRowIds acc →
  deselectedRowIds st ∖ cur ⊆ deselectedRowIds acc →
  selectedRowIds acc ∖ cur ⊆ selectedRowIds st →
  sameView acc (forEachFrom (Queued.reconcileRow st cur) i l acc)
  ∧ (selectedRowIds (forEachFrom (Queued.reconcileRow st cur) i l acc),
     deselectedRowIds (forEachFrom (Queued.reconcileRow st cur) i l acc))
    = forEachFrom (reconcileRow cur (currentPage st) (customSelectionTotal st)) i l
        (selectedRowIds acc, deselectedRowIds acc).
Proof.
  induction l as [|a t IH]; intros i acc H1 H2 H3 H4; simpl forEachFrom.
  - split; [apply sameView_refl | reflexivity].
  - destruct (queued_step st cur a i acc H1 H2 H3 H4) as (Hv & Hp & H1' & H2' & H3' & H4').
    destruct (IH (i + 1) _ H1' H2' H3' H4') as (Hv' & Hp').
    split; [by eapply sameView_trans|].
    rewrite Hp'. f_equal. exact Hp.
Qed.

(** X12.  The two revisions of [onSelectionChange] agree: batching the
    updates in local copies of the sets gives the same state as queueing
    one guarded update per row, whenever the ref holds the baseline. *)
Theorem onSelectionChange_revisions_agree (value : list Artwork) (st : State) :
  customTotalRef st = customSelectionTotal st →
  Queued.onSelectionChange value st = onSelectionChange value st.
Proof.
  intros Hsync. unfold Queued.onSelectionChange, onSelectionChange, forEach.
  destruct (queued_fold st (list_to_set (map artwork_id value)) (artworks st) 0 st)
    as (Hv & Hp); [set_solver..|].
  rewrite Hsync, <- Hp.
  destruct (forEachFrom (Queued.reconcileRow st _) 0 (artworks st) st) as [].
  destruct st. unfold sameView in Hv. simpl in Hv. destruct_and!. subst.
  reflexivity.
Qed.

Lemma onSelectionChange_revisions_agree_witness :
  Queued.onSelectionChange [row 5] sAllOff = onSelectionChange [row 5] sAllOff.
Proof. apply (onSelectionChange_revisions_agree [row 5] sAllOff). reflexivity. Defined.

Lemma elem_of_ruleIds auto page total (l : list Artwork) : ∀ i x,
  x ∈ ruleIds auto page total i l
  ↔ ∃ (j : nat) a, l !! j = Some a ∧ artwork_id a = x
      ∧ ((page - 1) * rowsPerPage + (i + Z.of_nat j) <? total) = auto.
Proof.
  induction l as [|a t IH]; intros i x; simpl ruleIds.
  - split; [set_solver | by intros (j & b & ? & _)].
  - rewrite elem_of_union, IH. split.
    + intros [H|(j & b & Hj & Hb & Hr)].
      * case_bool_decide as Hd; [|set_solver].
        apply elem_of_singleton in H as ->. exists 0%nat, a.
        repeat split. by rewrite Z.add_0_r.
      * exists (S j), b. repeat split; [done..|].
        rewrite <- Hr. f_equal. lia.
    + intros ([|j] & b & Hj & Hb & Hr); simpl in Hj.
      * left. injection Hj as ->. rewrite Z.add_0_r in Hr.
        rewrite bool_decide_eq_true_2 by done. set_solver.
      * right. exists j, b. repeat split; [done..|].
        rewrite <- Hr. f_equal. lia.
Qed.

Lemma ruleIds_row auto page total (l : list Artwork) (k : nat) (a : Artwork) :
  NoDup (map artwork_id l) → l !! k = Some a →
  artwork_id a ∈ ruleIds auto page total 0 l
  ↔ ((page - 1) * rowsPerPage + Z.of_nat k <? total) = auto.
Proof.
  intros Hnd Hk. rewrite elem_of_ruleIds. split.
  - intros (j & b & Hj & Hb & Hr).
    assert (j = k) as <-; [|exact Hr].
    eapply (NoDup_lookup _ j k (artwork_id a) Hnd);
      rewrite list_lookup_fmap; [rewrite Hj | rewrite Hk]; simpl; congruence.
  - intros Hr. exists k, a. done.
Qed.

(** X13.  On a page whose identifiers are distinct, after
    [onSelectionChange] a row is shown ticked exactly when the table
    reported it selected and either the rule selects its position or its
    identifier was not in the exclude set.  Rows not reported selected
    are always shown cleared. *)
Theorem onSelectionChange_shows_selection (value : list Artwork) (st : State)
    (k : nat) (a : Artwork) :
  customTotalRef st = customSelectionTotal st →
  NoDup (map artwork_id (artworks st)) →
  artworks st !! k = Some a →
  isRowSelected (onSelectionChange value st) (artwork_id a) (Z.of_nat k) = true
  ↔ artwork_id a ∈ map artwork_id value
    ∧ ((currentPage st - 1) * rowsPerPage + Z.of_nat k < customSelectionTotal st
       ∨ artwork_id a ∉ deselectedRowIds st).
Proof.
  intros Hsync Hnd Hk.
  destruct (onSelectionChange_sets value st) as [Hs Hd].
  destruct (onSelectionChange_sameView value st) as (_ & Hp & _ & _ & Ht & _).
  unfold isRowSelected. rewrite Hs, Hd, Hp, Ht, Hsync.
  pose proof (ruleIds_row true (currentPage st) (customSelectionTotal st) _ k a Hnd Hk) as HA.
  pose proof (ruleIds_row false (currentPage st) (customSelectionTotal st) _ k a Hnd Hk) as HN.
  assert (Hcur : artwork_id a ∈ (list_to_set (map artwork_id value) : gset Z)
                 ↔ artwork_id a ∈ map artwork_id value) by apply elem_of_list_to_set.
  rewrite <- Hcur. clear Hs Hd Hcur.
  set (N := ruleIds false (currentPage st) (customSelectionTotal st) 0 (artworks st)) in *.
  set (A := ruleIds true (currentPage st) (customSelectionTotal st) 0 (artworks st)) in *.
  set (cur := list_to_set (map artwork_id value) : gset Z) in *. clearbody N A cur.
  destruct (Z.ltb_spec ((currentPage st - 1) * rowsPerPage + Z.of_nat k)
              (customSelectionTotal st)) as [Hlt|Hge].
  - assert (HA' : artwork_id a ∈ A) by by apply HA.
    assert (HN' : artwork_id a ∉ N) by (rewrite HN; discriminate).
    clear HA HN. destruct (decide (artwork_id a ∈ cur));
      repeat case_decide; set_unfold; intuition (try discriminate; try lia; auto).
  - assert (HA' : artwork_id a ∉ A) by (rewrite HA; discriminate).
    assert (HN' : artwork_id a ∈ N) by by apply HN.
    clear HA HN. destruct (decide (artwork_id a ∈ cur));
      repeat case_decide; set_unfold; intuition (try discriminate; try lia; auto).
Qed.

Lemma onSelectionChange_shows_selection_witness :
  isRowSelected (onSelectionChange [row 5] sAllOn) (artwork_id (row 5)) (Z.of_nat 4) = true
  ↔ artwork_id (row 5) ∈ map artwork_id [row 5]
    ∧ ((currentPage sAllOn - 1) * rowsPerPage + Z.of_nat 4 < customSelectionTotal sAllOn
       ∨ artwork_id (row 5) ∉ deselectedRowIds sAllOn).
Proof.
  apply (onSelectionChange_shows_selection [row 5] sAllOn 4 (row 5)); [reflexivity | | reflexivity].
  vm_compute. repeat (apply NoDup_cons; split;
    [intros Hin; repeat (apply elem_of_cons in Hin as [Hin|Hin]; [discriminate|]);
     by apply elem_of_nil in Hin|]).
  apply NoDup_nil. done.
Defined.

(** ** Sessions over a stable collection *)

Lemma findIndex_lookup {A} (p : A → bool) (l : list A) (i : Z) :
  findIndex p l = i → i ≠ -1 →
  0 ≤ i ∧ ∃ x, l !! Z.to_nat i = Some x ∧ p x = true.
Proof.
  revert i. induction l as [|y t IH]; intros i; simpl; [congruence|].
  destruct (p y) eqn:Hy.
  - intros <- _. split; [lia|]. by exists y.
  - destruct (Z.eqb_spec (findIndex p t) (-1)); [congruence|].
    intros <- _. destruct (IH _ eq_refl n) as (H0 & x & Hx & Hpx).
    split; [lia|]. exists x. split; [|exact Hpx].
    replace (Z.to_nat (findIndex p t + 1)) with (S (Z.to_nat (findIndex p t))) by lia.
    exact Hx.
Qed.

(** The position the single-row handlers compute for a row they find is
    the position of its identifier in the collection. *)
Lemma found_row_position pos st (data : Artwork) (i : Z) :
  consistentPage pos (currentPage st) (artworks st) → 1 ≤ currentPage st →
  findIndex (λ a, artwork_id a =? artwork_id data) (artworks st) = i → i ≠ -1 →
  pos (artwork_id data) = (currentPage st - 1) * rowsPerPage + i ∧ 0 ≤ pos (artwork_id data).
Proof.
  intros Hc Hp Hi Hne.
  destruct (findIndex_lookup _ _ _ Hi Hne) as (H0 & a & Ha & Heq).
  apply Z.eqb_eq in Heq. rewrite <- Heq, (Hc _ _ Ha).
  unfold rowsPerPage. split; lia.
Qed.

Lemma stableInv_sync pos st :
  1 ≤ currentPage st → consistentPage pos (currentPage st) (artworks st) →
  (∀ x, x ∈ selectedRowIds st → customSelectionTotal st ≤ pos x) →
  (∀ x, x ∈ deselectedRowIds st → 0 ≤ pos x < customSelectionTotal st) →
  stableInv pos (syncCustomTotalRef st).
Proof.
  intros Hp Hc HS HD. unfold stableInv, syncCustomTotalRef, writeCustomTotalRef. simpl.
  split; [reflexivity|]. split; [exact Hp|]. split; [exact Hc|]. split; [exact HS | exact HD].
Qed.

Lemma stableInv_step pos st ev :
  stableInv pos st → stableEvent pos st ev → stableInv pos (step ev st).
Proof.
  intros (Hsync & Hpage & Hcons & HS & HD) Hev. unfold step.
  destruct ev as [r|p r|data|data|value|checked|s|]; simpl in *.
  - destruct r; try contradiction; apply stableInv_sync; simpl; assumption.
  - destruct (Z.eqb_spec p (currentPage st)) as [->|Hne];
      [apply stableInv_sync; simpl; assumption|].
    destruct r; try contradiction. destruct Hev.
    apply stableInv_sync; simpl; assumption.
  - destruct (onRowSelect_frame data st) as (Ha & Hp & Hr & Ht).
    apply stableInv_sync; rewrite ?Ha, ?Hp, ?Ht; try done;
      unfold onRowSelect;
      destruct (Z.eqb_spec (findIndex (λ a, artwork_id a =? artwork_id data) (artworks st)) (-1));
      try done;
      destruct (found_row_position pos st data _ Hcons Hpage eq_refl n) as [Hpos H0];
      rewrite Hsync;
      destruct (Z.ltb_spec ((currentPage st - 1) * rowsPerPage
                 + findIndex (λ a, artwork_id a =? artwork_id data) (artworks st))
                 (customSelectionTotal st)); simpl; intros x Hx; set_unfold;
      try (destruct Hx as [Hx| ->]; [by apply HS | lia]); first [by apply HS | apply HD; tauto].
  - destruct (onRowUnselect_frame data st) as (Ha & Hp & Hr & Ht).
    apply stableInv_sync; rewrite ?Ha, ?Hp, ?Ht; try done;
      unfold onRowUnselect;
      destruct (Z.eqb_spec (findIndex (λ a, artwork_id a =? artwork_id data) (artworks st)) (-1));
      try done;
      destruct (found_row_position pos st data _ Hcons Hpage eq_refl n) as [Hpos H0];
      rewrite Hsync;
      destruct (Z.ltb_spec ((currentPage st - 1) * rowsPerPage
                 + findIndex (λ a, artwork_id a =? artwork_id data) (artworks st))
                 (customSelectionTotal st)); simpl; intros x Hx; set_unfold;
      try (destruct Hx as [Hx| ->]; [by apply HD | lia]); first [apply HS; tauto | by apply HD].
  - destruct (onSelectionChange_sameView value st) as (Ha & Hp & _ & _ & Ht & _).
    destruct (onSelectionChange_sets value st) as [Hs Hd].
    apply stableInv_sync; rewrite ?Ha, ?Hp, ?Ht; try done.
    + rewrite Hs. intros x Hx. apply elem_of_difference in Hx as [Hx _].
      apply elem_of_union in Hx as [Hx|Hx]; [by apply HS|].
      apply elem_of_intersection in Hx as [Hx _].
      apply elem_of_ruleIds in Hx as (j & a & Hj & <- & Hr).
      rewrite (Hcons _ _ Hj). rewrite Hsync in Hr. apply Z.ltb_ge in Hr. lia.
    + rewrite Hd. intros x Hx.
      apply elem_of_union in Hx as [Hx|Hx].
      * apply elem_of_difference in Hx as [Hx _]. by apply HD.
      * apply elem_of_difference in Hx as [Hx _].
        apply elem_of_ruleIds in Hx as (j & a & Hj & <- & Hr).
        rewrite (Hcons _ _ Hj). rewrite Hsync in Hr. apply Z.ltb_lt in Hr.
        unfold rowsPerPage in *. lia.
  - contradiction.
  - apply stableInv_sync; simpl; assumption.
  - unfold handleCustomRowSelection.
    destruct (parseInt (selectCount st)) as [k|]; simpl;
      [|apply stableInv_sync; simpl; assumption].
    destruct (Z.ltb_spec k 0); simpl; [apply stableInv_sync; simpl; assumption|].
    apply stableInv_sync; simpl; try assumption; set_solver.
Qed.

Lemma stableReachable_inv pos st : stableReachable pos st → stableInv pos st.
Proof.
  induction 1 as [|st ev _ IH Hev].
  - repeat split; simpl; try done; try lia; set_solver.
  - by apply stableInv_step.
Qed.

Lemma stable_sets (pos : Z → Z) (st : State) :
  stableReachable pos st →
  selectedRowIds st ## deselectedRowIds st
  ∧ (∀ x, x ∈ selectedRowIds st → customSelectionTotal st ≤ pos x)
  ∧ (∀ x, x ∈ deselectedRowIds st → 0 ≤ pos x < customSelectionTotal st).
Proof.
  intros (_ & _ & _ & HS & HD)%stableReachable_inv.
  split; [|by split]. intros x Hs Hd.
  specialize (HS x Hs). specialize (HD x Hd). lia.
Qed.

(** X14.  In a session whose pages all come from one collection with
    every record at a fixed position, and in which the header checkbox
    is never used, the include and exclude sets stay disjoint: every
    included identifier lies at or above the baseline and every excluded
    one below it. *)
Theorem stable_session_disjoint (pos : Z → Z) (st : State) :
  stableReachable pos st →
  selectedRowIds st ## deselectedRowIds st
  ∧ (∀ x, x ∈ selectedRowIds st → customSelectionTotal st ≤ pos x)
  ∧ (∀ x, x ∈ deselectedRowIds st → 0 ≤ pos x < customSelectionTotal st).
Proof. apply stable_sets. Qed.

Lemma page1_consistent : consistentPage (λ x, x - 1) 1 page1.
Proof.
  intros i a Hi.
  do 12 (destruct i as [|i]; [injection Hi as <-; reflexivity|]). discriminate.
Qed.

Lemma sBulk_stable : stableReachable (λ x, x - 1) sBulk ∧ stableReachable (λ x, x - 1) sBulk'.
Proof.
  unfold sBulk, sBulk', run; simpl fold_left.
  split; repeat (apply stable_step; [|first [exact I | apply page1_consistent]]);
    apply stable_init.
Qed.

Lemma stable_session_disjoint_witness :
  selectedRowIds sBulk ## deselectedRowIds sBulk.
Proof.
  exact (proj1 (stable_session_disjoint (λ x, x - 1) sBulk (proj1 sBulk_stable))).
Defined.





(** ** Pagination bar *)

(** [ceilDiv a 12] is the least number of pages of twelve that hold [a]
    records. *)
Lemma ceilDiv_spec (a : Z) :
  rowsPerPage * (ceilDiv a rowsPerPage - 1) < a ≤ rowsPerPage * ceilDiv a rowsPerPage.
Proof.
  unfold ceilDiv, rowsPerPage.
  pose proof (Z.div_mod (- a) 12 ltac:(lia)).
  pose proof (Z.mod_pos_bound (- a) 12 ltac:(lia)). lia.
Qed.

Lemma seqZ_small (m : Z) :
  seqZ m 0 = [] ∧ seqZ m 1 = [m] ∧ seqZ m 2 = [m; m + 1] ∧ seqZ m 3 = [m; m + 1; m + 2]
  ∧ seqZ m 4 = [m; m + 1; m + 2; m + 3] ∧ seqZ m 5 = [m; m + 1; m + 2; m + 3; m + 4].
Proof.
  unfold seqZ. simpl. repeat split; repeat (apply (f_equal2 cons); [lia|]); reflexivity.
Qed.

(** Slots [0 .. n-1] holding pages [start + i], the ones past page [T]
    left out: what remains is a run of consecutive pages. *)
Lemma window_buttons (start T n : Z) :
  n ≤ 5 →
  omap (λ o : option Z, o)
    (map (λ i, if T <? start + i then None else Some (start + i)) (seqZ 0 n))
  = seqZ start (Z.min n (T - start + 1)).
Proof.
  intros Hn.
  assert (Hz : ∀ m k, k ≤ 0 → seqZ m k = []).
  { intros m k Hk. apply length_zero_iff_nil. rewrite length_seqZ. lia. }
  destruct (seqZ_small start) as (E0 & E1 & E2 & E3 & E4 & E5).
  destruct (seqZ_small 0) as (_ & Z1 & Z2 & Z3 & Z4 & Z5).
  assert (Hcases : n ≤ 0 ∨ n = 1 ∨ n = 2 ∨ n = 3 ∨ n = 4 ∨ n = 5) by lia.
  destruct Hcases as [H0|Hcases].
  { rewrite (Hz 0 n), (Hz start) by lia. reflexivity. }
  repeat (destruct Hcases as [->|Hcases]); try subst n;
    rewrite ?Z1, ?Z2, ?Z3, ?Z4, ?Z5;
    match goal with |- _ = ?rhs => set (R := rhs) end; simpl;
    repeat (match goal with |- context [?a <? ?b] => destruct (Z.ltb_spec a b) end; simpl);
    subst R; try (exfalso; lia);
    match goal with
    | |- _ = seqZ _ ?m =>
        first [ rewrite (Hz start m) by lia
              | replace m with 1 by lia; rewrite E1
              | replace m with 2 by lia; rewrite E2
              | replace m with 3 by lia; rewrite E3
              | replace m with 4 by lia; rewrite E4
              | replace m with 5 by lia; rewrite E5 ]
    end; repeat (apply (f_equal2 cons); [lia|]); reflexivity.
Qed.

Lemma pageButtons_seqZ (st : State) :
  pageButtons st =
  seqZ (if currentPage st <=? 3 then 1 else currentPage st - 2)
    (Z.min (Z.min 5 (totalPages st))
       (totalPages st - (if currentPage st <=? 3 then 1 else currentPage st - 2) + 1)).
Proof.
  unfold pageButtons, pageSlots. rewrite <- window_buttons by lia.
  f_equal. apply map_ext. intros i. unfold pageSlot.
  destruct (currentPage st <=? 3).
  - by replace (i + 1) with (1 + i) by lia.
  - reflexivity.
Qed.

(** X16.  The numbered buttons are a window of consecutive pages: it
    starts at page 1 while the current page is at most 3 and two pages
    before the current one afterwards, holds at most five pages and
    stops at the last page. *)
Theorem pageButtons_window (st : State) :
  pageButtons st =
  seqZ (if currentPage st <=? 3 then 1 else currentPage st - 2)
    (Z.min (Z.min 5 (totalPages st))
       (totalPages st - (if currentPage st <=? 3 then 1 else currentPage st - 2) + 1)).
Proof. apply pageButtons_seqZ. Qed.

Lemma pageButtons_range (st : State) :
  (∀ p, p ∈ pageButtons st → 1 ≤ p ≤ totalPages st)
  ∧ NoDup (pageButtons st)
  ∧ (length (pageButtons st) ≤ 5)%nat.
Proof.
  rewrite pageButtons_seqZ. split; [|split].
  - intros p Hp%elem_of_seqZ. destruct (Z.leb_spec (currentPage st) 3); lia.
  - apply NoDup_seqZ.
  - rewrite length_seqZ. lia.
Qed.

(** X17.  Every numbered button leads to an existing page, no page has
    two buttons, and there are at most five. *)
Theorem pageButtons_valid (st : State) :
  (∀ p, p ∈ pageButtons st → 1 ≤ p ≤ totalPages st)
  ∧ NoDup (pageButtons st)
  ∧ (length (pageButtons st) ≤ 5)%nat.
Proof. apply pageButtons_range. Qed.

Lemma pageButtons_valid_witness :
  3 ∈ pageButtons sBulk ∧ 1 ≤ 3 ≤ totalPages sBulk.
Proof.
  assert (H : 3 ∈ pageButtons sBulk).
  { vm_compute. apply list_elem_of_further, list_elem_of_further, list_elem_of_here. }
  split; [exact H | exact (proj1 (pageButtons_valid sBulk) 3 H)].
Defined.

(** X18.  The current page has a button exactly when it is an existing
    page. *)
Theorem currentPage_has_button (st : State) :
  currentPage st ∈ pageButtons st ↔ 1 ≤ currentPage st ≤ totalPages st.
Proof.
  rewrite pageButtons_seqZ, elem_of_seqZ.
  destruct (Z.leb_spec (currentPage st) 3); lia.
Qed.

(** X19.  From an existing page, every enabled control of the bar asks
    for an existing page: the numbered buttons, the "previous" arrow
    (disabled on page 1) and the "next" arrow (disabled on the last
    page). *)
Theorem navigation_stays_in_range (st : State) (p : Z) :
  1 ≤ currentPage st ≤ totalPages st →
  p ∈ pageButtons st
  ∨ (prevDisabled st = false ∧ p = prevTarget st)
  ∨ (nextDisabled st = false ∧ p = nextTarget st) →
  1 ≤ p ≤ totalPages st.
Proof.
  intros Hcur [Hp|[[Hd ->]|[Hd ->]]].
  - by apply pageButtons_range.
  - unfold prevDisabled, prevTarget in *. apply Z.eqb_neq in Hd. lia.
  - unfold nextDisabled, nextTarget in *. apply Z.eqb_neq in Hd. lia.
Qed.

Lemma navigation_stays_in_range_witness :
  1 ≤ nextTarget sBulk ≤ totalPages sBulk.
Proof.
  apply (navigation_stays_in_range sBulk (nextTarget sBulk)).
  - vm_compute. split; discriminate.
  - right. right. split; reflexivity.
Defined.

(** X20.  With no records (before the first page arrives, or when the
    collection is empty) the bar shows no numbered button, yet the
    "next" arrow is enabled on every page from 1 on and asks for a page
    that does not exist. *)
Theorem empty_collection_next_enabled (st : State) :
  totalRecords st ≤ 0 → 1 ≤ currentPage st →
  pageButtons st = [] ∧ nextDisabled st = false ∧ totalPages st < nextTarget st.
Proof.
  intros Ht Hc. pose proof (ceilDiv_spec (totalRecords st)) as Hs.
  fold (totalPages st) in Hs. unfold rowsPerPage in Hs.
  split; [|split].
  - rewrite pageButtons_seqZ. apply length_zero_iff_nil. rewrite length_seqZ. lia.
  - unfold nextDisabled. apply Z.eqb_neq. lia.
  - unfold nextTarget. lia.
Qed.

Lemma empty_collection_next_enabled_witness :
  pageButtons initialState = [] ∧ nextDisabled initialState = false
  ∧ totalPages initialState < nextTarget initialState.
Proof.
  apply (empty_collection_next_enabled initialState); simpl; lia.
Defined.

(** X21.  On an existing page the "Showing a to b of N" label is a
    proper range inside the collection holding at most twelve records,
    exactly twelve on every page but the last, and [a] is the position
    of the first row counted from 1. *)
Theorem showing_range (st : State) :
  1 ≤ currentPage st ≤ totalPages st →
  showingFrom st ≤ showingTo st ≤ totalRecords st
  ∧ showingTo st - showingFrom st + 1 ≤ rowsPerPage
  ∧ (currentPage st < totalPages st → showingTo st - showingFrom st + 1 = rowsPerPage)
  ∧ showingFrom st = Spec.position (currentPage st) rowsPerPage 0 + 1.
Proof.
  intros Hc. pose proof (ceilDiv_spec (totalRecords st)) as Hs.
  fold (totalPages st) in Hs.
  unfold showingFrom, showingTo, Spec.position, rowsPerPage in *. lia.
Qed.

Lemma showing_range_witness :
  showingFrom sBulk ≤ showingTo sBulk ≤ totalRecords sBulk.
Proof.
  apply (showing_range sBulk). vm_compute. split; discriminate.
Defined.

(** ** Page loads and the selection *)

(** X22.  Loading a page never touches the selection: whatever the
    provider answers, the baseline, both sets and the displayed count
    are as before; a page that arrives replaces the rows and the record
    total. *)
Theorem page_load_keeps_selection (p : Z) (r : Response) (st : State) :
  model (step (GoToPage p r) st) = model st
  ∧ model (step (Mount r) st) = model st
  ∧ selectedCount (step (GoToPage p r) st) = selectedCount st
  ∧ (∀ data total, r = Page data total → p ≠ currentPage st →
       artworks (step (GoToPage p r) st) = data
       ∧ totalRecords (step (GoToPage p r) st) = total
       ∧ currentPage (step (GoToPage p r) st) = p
       ∧ loading (step (GoToPage p r) st) = false).
Proof.
  assert (Hm : model (step (GoToPage p r) st) = model st).
  { unfold step, handle. destruct (p =? currentPage st); by destruct r as [| | |[rows|]]. }
  split; [exact Hm|]. split; [unfold step, handle; by destruct r as [| | |[rows|]]|].
  split.
  - unfold selectedCount.
    change (customSelectionTotal (step (GoToPage p r) st))
      with (fst (fst (model (step (GoToPage p r) st)))).
    change (selectedRowIds (step (GoToPage p r) st))
      with (snd (fst (model (step (GoToPage p r) st)))).
    change (deselectedRowIds (step (GoToPage p r) st))
      with (snd (model (step (GoToPage p r) st))).
    by rewrite Hm.
  - intros data total -> Hne. unfold step, handle.
    destruct (Z.eqb_spec p (currentPage st)); [contradiction | done].
Qed.

Lemma page_load_keeps_selection_witness :
  artworks (step (GoToPage 2 (Page [row 13] 120)) sBulk) = [row 13]
  ∧ model (step (GoToPage 2 (Page [row 13] 120)) sBulk) = model sBulk.
Proof.
  destruct (page_load_keeps_selection 2 (Page [row 13] 120) sBulk) as (Hm & _ & _ & Hd).
  split; [|exact Hm].
  exact (proj1 (Hd [row 13] 120 eq_refl ltac:(discriminate))).
Defined.

(** X23.  Leaving a page and coming back to the same rows gives back
    the state exactly, whatever was received in between: every row
    shows the selection it had. *)
Theorem page_round_trip (q : Z) (r : Response) (st : State) :
  customTotalRef st = customSelectionTotal st → loading st = false →
  q ≠ currentPage st →
  step (GoToPage (currentPage st) (Page (artworks st) (totalRecords st)))
    (step (GoToPage q r) st) = st.
Proof.
  intros Hsync Hl Hq. unfold step at 2. unfold handle.
  destruct (Z.eqb_spec q (currentPage st)); [contradiction|].
  destruct st; simpl in *; subst.
  destruct r as [| | |[rows|]]; unfold step, handle; simpl;
    (destruct (Z.eqb_spec currentPage0 q); [congruence|]); reflexivity.
Qed.

Lemma page_round_trip_witness :
  step (GoToPage (currentPage sBulk) (Page (artworks sBulk) (totalRecords sBulk)))
    (step (GoToPage 2 NetworkError) sBulk) = sBulk.
Proof.
  apply (page_round_trip 2 NetworkError sBulk); [reflexivity | reflexivity | discriminate].
Defined.

(** X24.  The baseline is never negative in a reachable state. *)
Theorem baseline_never_negative (st : State) :
  reachable st → 0 ≤ customSelectionTotal st ∧ customTotalRef st = customSelectionTotal st.
Proof.
  intros H. split; [by apply reachable_baseline_nonneg | by apply reachable_ref_synced].
Qed.

Lemma baseline_never_negative_witness :
  0 ≤ customSelectionTotal sRow5 ∧ customTotalRef sRow5 = customSelectionTotal sRow5.
Proof. exact (baseline_never_negative sRow5 (proj1 (proj2 (proj2 session_reachable)))). Defined.

(** ** Reading the bulk field *)

(** X25.  Text after the digits is ignored: digits followed by any
    character that is not a digit (nor the [x] of a hexadecimal prefix)
    and by anything else are read as the digits alone, and the bulk
    command acts on the one input exactly as on the other. *)
Theorem handleCustomRowSelection_ignores_trailing_text (s rest : string) (c : ascii)
    (st : State) :
  SpecInput.natLiteral s = true → SpecInput.isDigit c = false →
  c ≠ "x"%char → c ≠ "X"%char →
  parseInt (String.append s (String c rest)) = parseInt s
  ∧ handleCustomRowSelection (setSelectCount (λ _, String.append s (String c rest)) st)
    = handleCustomRowSelection (setSelectCount (λ _, s) st).
Proof.
  intros Hs Hc Hx HX.
  pose proof (parseInt_trailing s rest c Hs Hc Hx HX) as Hp.
  split; [exact Hp|].
  destruct (parseInt_natLiteral s Hs) as (k & Hk & Hk0).
  unfold handleCustomRowSelection. simpl selectCount. rewrite Hp, Hk.
  simpl. destruct (Z.ltb_spec k 0); [lia | reflexivity].
Qed.

Lemma handleCustomRowSelection_ignores_trailing_text_witness :
  parseInt (String.append "3" (String "." "7")) = parseInt "3"
  ∧ handleCustomRowSelection (setSelectCount (λ _, String.append "3" (String "." "7")) sRow5)
    = handleCustomRowSelection (setSelectCount (λ _, "3") sRow5).
Proof.
  apply (handleCustomRowSelection_ignores_trailing_text "3" "7" "." sRow5);
    [reflexivity | reflexivity | discriminate | discriminate].
Defined.

Lemma parseInt_minus (c : ascii) (t : string) :
  SpecInput.isDigit c = true →
  parseInt (String "-" (String c t)) = Z.opp <$> parseInt (String c t).
Proof.
  assert (Hgo : ∀ r a x,
    match parseDigits r a x with Some n => Some (-1 * toDouble n) | None => None end
    = Z.opp <$> match parseDigits r a x with
                | Some n => Some (1 * toDouble n)
                | None => None
                end).
  { intros r a x. destruct (parseDigits r a x); simpl; [f_equal; lia | reflexivity]. }
  intros Hc%isDigit_cases.
  apply elem_of_cons in Hc as [->|Hc].
  - destruct t as [|c2 t2]; [reflexivity|].
    destruct c2 as [[] [] [] [] [] [] [] []];
      match goal with
      | |- parseInt (String "-" ?s) = _ =>
          first [ exact (Hgo 10 None s) | exact (Hgo 16 None t2) ]
      end.
  - repeat (apply elem_of_cons in Hc as [->|Hc];
      [match goal with |- parseInt (String "-" ?s) = _ => exact (Hgo 10 None s) end|]).
    by apply elem_of_nil in Hc.
Qed.

(** X26.  A minus sign in front of a number negates it, so the bulk
    command refuses "-n" for every n > 0 and changes nothing; "-0" reads
    as 0 and is accepted. *)
Theorem handleCustomRowSelection_minus (c : ascii) (t : string) (k : Z) (st : State) :
  SpecInput.isDigit c = true → parseInt (String c t) = Some k →
  parseInt (String "-" (String c t)) = Some (- k)
  ∧ (0 < k → rejected (setSelectCount (λ _, String "-" (String c t)) st))
  ∧ (k = 0 → acceptedWith 0 (setSelectCount (λ _, String "-" (String c t)) st)).
Proof.
  intros Hc Hk.
  assert (Hneg : parseInt (String "-" (String c t)) = Some (- k)).
  { rewrite (parseInt_minus c t Hc), Hk. reflexivity. }
  split; [exact Hneg|]. split.
  - intros Hpos. apply (rejected_of_parse _ (- k)); [exact Hneg | lia].
  - intros ->. by apply accepted_of_parse.
Qed.

Lemma handleCustomRowSelection_minus_witness :
  parseInt (String "-" (String "4" "")) = Some (- 4)
  ∧ rejected (setSelectCount (λ _, String "-" (String "4" "")) sRow5).
Proof.
  destruct (handleCustomRowSelection_minus "4" "" 4 sRow5 eq_refl eq_refl) as (H1 & H2 & _).
  split; [exact H1 | apply H2; lia].
Defined.

Lemma trimStart_blank s : allWhiteSpace s = true → trimStart s = EmptyString.
Proof.
  induction s as [|c t IH]; simpl; [done|].
  intros [Hc Ht]%andb_prop. rewrite Hc. by apply IH.
Qed.

(** X27.  An empty or blank bulk field is refused: the handler alerts
    and changes nothing. *)
Theorem handleCustomRowSelection_blank (st : State) :
  allWhiteSpace (selectCount st) = true → rejected st.
Proof.
  intros Hw. unfold rejected, handleCustomRowSelection, parseInt.
  by rewrite (trimStart_blank _ Hw).
Qed.

Lemma handleCustomRowSelection_blank_witness : rejected sRow5.
Proof. apply (handleCustomRowSelection_blank sRow5). reflexivity. Defined.

(** X28.  After an accepted bulk command with count [k], on every page
    a row is shown selected exactly when its position is below [k],
    whatever its identifier: all manual overrides are gone. *)
Theorem bulk_selects_first_rows (st : State) (k : Z) :
  parseInt (selectCount st) = Some k → 0 ≤ k →
  (∀ x i, isRowSelected (fst (handleCustomRowSelection st)) x i
          = ((currentPage st - 1) * rowsPerPage + i <? k))
  ∧ (∀ p r x i, p ≠ currentPage st →
       isRowSelected (step (GoToPage p r) (step CustomRowSelection st)) x i
       = ((p - 1) * rowsPerPage + i <? k)).
Proof.
  intros Hp Hk.
  assert (E : handleCustomRowSelection st
    = (setSelectCount (λ _, "") (writeCustomTotalRef k (setCustomSelectionTotal (λ _, k)
         (setDeselectedRowIds (λ _, ∅) (setSelectedRowIds (λ _, ∅) st)))), [OverlayHide])).
  { unfold handleCustomRowSelection. rewrite Hp. simpl.
    destruct (Z.ltb_spec k 0); [lia | reflexivity]. }
  split.
  - intros x i. rewrite E. unfold isRowSelected. simpl.
    rewrite !decide_False by set_solver. reflexivity.
  - intros p r x i Hne. unfold step at 2. unfold handle. rewrite E.
    unfold step, handle. simpl.
    destruct (Z.eqb_spec p (currentPage st)); [contradiction|].
    unfold isRowSelected. destruct r as [| | |[rows|]]; simpl;
      rewrite !decide_False by set_solver; reflexivity.
Qed.

Lemma bulk_selects_first_rows_witness :
  isRowSelected (fst (handleCustomRowSelection (setSelectCount (λ _, "15") sRow5))) 5 4
  = ((currentPage (setSelectCount (λ _, "15") sRow5) - 1) * rowsPerPage + 4 <? 15).
Proof.
  apply (proj1 (bulk_selects_first_rows (setSelectCount (λ _, "15") sRow5) 15
                  eq_refl ltac:(lia))).
Defined.

(** X29.  The bulk command clears its own input, so pressing "Select"
    again without typing is always refused: after the command, in any
    state, a second run alerts and changes nothing. *)
Theorem handleCustomRowSelection_second_press (st : State) :
  rejected (fst (handleCustomRowSelection st))
  ∧ fst (handleCustomRowSelection (fst (handleCustomRowSelection st)))
    = fst (handleCustomRowSelection st).
Proof.
  assert (H : rejected (fst (handleCustomRowSelection st))).
  { unfold rejected. unfold handleCustomRowSelection at 2 3.
    destruct (invalidCount (parseInt (selectCount st))) eqn:E; simpl.
    - unfold handleCustomRowSelection. by rewrite E.
    - reflexivity. }
  split; [exact H|]. unfold rejected in H. by rewrite H.
Qed.

(** X30.  Rows of a page of at most twelve get distinct positions, and
    positions of different pages never meet; a thirteenth row would get
    the position of the first row of the next page, and so its
    rule-selection. *)
Theorem positions_do_not_collide (p q i j : Z) :
  0 ≤ i < rowsPerPage → 0 ≤ j < rowsPerPage →
  (Spec.position p rowsPerPage i = Spec.position q rowsPerPage j → p = q ∧ i = j)
  ∧ (∀ st x, x ∉ selectedRowIds st → x ∉ deselectedRowIds st →
       isRowSelected st x (i + rowsPerPage)
       = isRowSelected (setCurrentPage (λ n, n + 1) st) x i).
Proof.
  intros Hi Hj. unfold Spec.position, rowsPerPage in *. split; [lia|].
  intros st x Hs Hd. unfold isRowSelected, rowsPerPage. simpl.
  rewrite !decide_False by done. f_equal. lia.
Qed.

Lemma positions_do_not_collide_witness :
  isRowSelected sLoaded 40 (3 + rowsPerPage)
  = isRowSelected (setCurrentPage (λ n, n + 1) sLoaded) 40 3.
Proof.
  apply (proj2 (positions_do_not_collide 1 1 3 3 ltac:(unfold rowsPerPage; lia)
                  ltac:(unfold rowsPerPage; lia)) sLoaded 40);
    apply (bool_decide_unpack _); vm_compute; exact I.
Defined.
